(** * Exim4 log parser (plaso/parsers/exim.py): model and verification

    The parser recognises exim4 main-log lines with a pyparsing grammar,
    normalises the date and time to a timestamp and hands the record either
    to a plugin selected by the record's reporter or to the generic
    [exim4:line] event.  This file embeds the grammar (with the small part of
    pyparsing and of the [re] module it relies on), the plugin index and
    [ParseRecord], and proves the properties the specification states. *)

From Stdlib Require Import ZArith List Ascii String Lia Bool.
From stdpp Require Import base option list gmap strings.

Local Open Scope Z_scope.

(** ** Text

    Python text is modelled as a list of characters; [u "..."] plays the
    role of the [u'...'] literals of the source. *)

Module PyStr.

Definition str := list ascii.

Definition u (s : string) : str := list_ascii_of_string s.

Definition code (c : ascii) : N := N_of_ascii c.

Definition in_range (lo hi : N) (c : ascii) : bool :=
  ((lo <=? code c) && (code c <=? hi))%N.

(** [c in chars] for a string used as a character set. *)
Definition char_in (chars : str) (c : ascii) : bool :=
  existsb (Ascii.eqb c) chars.

Definition TAB : ascii := "009"%char.
Definition LF : ascii := "010"%char.
Definition CR : ascii := "013"%char.
Definition SPACE : ascii := " "%char.

(** [str.expandtabs()] with the default tab size of 8: a tab becomes the
    spaces up to the next multiple of 8, the column restarts after a line
    feed or a carriage return. *)
Fixpoint expandtabs_from (col : nat) (s : str) : str :=
  match s with
  | [] => []
  | c :: s' =>
      if Ascii.eqb c TAB then
        let incr := (8 - col mod 8)%nat in
        repeat SPACE incr ++ expandtabs_from (col + incr) s'
      else if Ascii.eqb c LF || Ascii.eqb c CR then
        c :: expandtabs_from 0 s'
      else c :: expandtabs_from (col + 1) s'
  end.

Definition expandtabs (s : str) : str := expandtabs_from 0 s.

(** [int(token)] on a token made of decimal digits. *)
Definition digit_value (c : ascii) : Z := Z.of_N (code c) - 48.

Definition int_of_digits (s : str) : Z :=
  fold_left (fun acc c => 10 * acc + digit_value c) s 0.

(** The digits of [n] in a field of [width] characters, as ['%0<width>d']
    prints a number that fits the field. *)
Fixpoint zero_padded (width : nat) (n : Z) : str :=
  match width with
  | O => []
  | S w => zero_padded w (n / 10) ++ [ascii_of_N (Z.to_N (48 + n mod 10))]
  end.

End PyStr.
Export PyStr.

(** ** Regular expressions

    The patterns of the source, as syntax trees, and a backtracking matcher
    that lists the ways a pattern can match at the head of the input, in the
    order in which [re] tries them.  A result is the input that is left. *)

Module Re.

Inductive regex : Type :=
| Chr (p : ascii -> bool)          (* one character of a class *)
| Empty                            (* the empty pattern *)
| Seq (r1 r2 : regex)              (* r1 r2 *)
| Alt (r1 r2 : regex)              (* r1|r2 *)
| Star (greedy : bool) (r : regex) (* r* and r*? *)
| Lookahead (r : regex)            (* (?=r) *)
| Bol                              (* ^ without MULTILINE *)
| Eol.                             (* $ without MULTILINE *)

(** Character classes of a pattern compiled without UNICODE or LOCALE. *)
Definition is_digit (c : ascii) : bool := in_range 48 57 c.
Definition is_space (c : ascii) : bool :=
  Ascii.eqb c SPACE || in_range 9 13 c.
Definition is_word (c : ascii) : bool :=
  is_digit c || in_range 65 90 c || in_range 97 122 c || Ascii.eqb c "_"%char.

Definition d : regex := Chr is_digit.                 (* \d *)
Definition s : regex := Chr is_space.                 (* \s *)
Definition w : regex := Chr is_word.                  (* \w *)
Definition lit (c : ascii) : regex := Chr (Ascii.eqb c).
Definition dot_all : regex := Chr (fun _ => true).    (* . under DOTALL *)
Definition dot : regex := Chr (fun c => negb (Ascii.eqb c LF)).

Fixpoint rep (n : nat) (r : regex) : regex :=         (* r{n} *)
  match n with
  | O => Empty
  | S O => r
  | S n' => Seq r (rep n' r)
  end.

Definition opt (r : regex) : regex := Alt r Empty.    (* r? *)
Definition plus (r : regex) : regex := Seq r (Star true r). (* r+ *)

Infix "⋅" := Seq (at level 60, right associativity).

(** The iterations of a starred pattern: greedy tries one more round
    first, lazy tries to stop first.  A round that consumes nothing is not
    repeated, so [length] of the input bounds the number of rounds. *)
Fixpoint iter_star (greedy : bool) (step : str -> list str)
    (fuel : nat) (input : str) : list str :=
  match fuel with
  | O => [input]
  | S n =>
      let more :=
        flat_map (fun rest =>
          if (length rest <? length input)%nat
          then iter_star greedy step n rest else []) (step input) in
      if greedy then more ++ [input] else input :: more
  end.

(** [matches n r input]: [n] is the length of the whole subject string, so
    that [^] can tell whether [input] starts at its beginning. *)
Fixpoint matches (n : nat) (r : regex) (input : str) : list str :=
  match r with
  | Chr p =>
      match input with
      | c :: rest => if p c then [rest] else []
      | [] => []
      end
  | Empty => [input]
  | Seq r1 r2 => flat_map (matches n r2) (matches n r1 input)
  | Alt r1 r2 => matches n r1 input ++ matches n r2 input
  | Star greedy r1 => iter_star greedy (matches n r1) (length input) input
  | Lookahead r1 =>
      match matches n r1 input with
      | [] => []
      | _ :: _ => [input]
      end
  | Bol => if (length input =? n)%nat then [input] else []
  | Eol =>
      match input with
      | [] => [input]
      | [c] => if Ascii.eqb c LF then [input] else []
      | _ => []
      end
  end.

(** [pattern.match(string, pos)] with [input = string[pos:]]: the matched
    text ([group()]) and the input after it. *)
Definition match_at (n : nat) (r : regex) (input : str) : option (str * str) :=
  match matches n r input with
  | rest :: _ => Some (take (length input - length rest)%nat input, rest)
  | [] => None
  end.

(** [re.match(pattern, string)]. *)
Definition re_match (r : regex) (string : str) : option (str * str) :=
  match_at (length string) r string.

(** Whether the pattern matches at the head of the input at all. *)
Definition accepts (n : nat) (r : regex) (input : str) : bool :=
  match matches n r input with
  | [] => false
  | _ :: _ => true
  end.

(** ** Functions on patterns and inputs used in the proofs *)

(** The input and all its ends, longest first: the places a lazy [.*?]
    tries in turn. *)
Fixpoint suffixes (input : str) : list str :=
  match input with
  | [] => [[]]
  | _ :: rest => input :: suffixes rest
  end.

Fixpoint bol_free (r : regex) : bool :=
  match r with
  | Bol => false
  | Seq r1 r2 | Alt r1 r2 => bol_free r1 && bol_free r2
  | Star _ r1 | Lookahead r1 => bol_free r1
  | Chr _ | Empty | Eol => true
  end.

(** The pattern that reads one character of each class in turn. *)
Fixpoint chars_regex (classes : list (ascii -> bool)) : regex :=
  match classes with
  | [] => Empty
  | p :: classes' => Seq (Chr p) (chars_regex classes')
  end.

(** The input after its longest run of characters of a class. *)
Fixpoint skip_while (p : ascii -> bool) (input : str) : str :=
  match input with
  | c :: rest => if p c then skip_while p rest else input
  | [] => []
  end.

Definition nonempty {A : Type} (l : list A) : bool :=
  match l with [] => false | _ :: _ => true end.

(** [r] followed by [k], with the sequences inside [r] opened up. *)
Fixpoint then_regex (r k : regex) : regex :=
  match r with
  | Seq r1 r2 => then_regex r1 (then_regex r2 k)
  | _ => Seq r k
  end.

End Re.

(** ** The part of pyparsing the grammar uses

    Parser elements are syntax trees; [_parse] interprets them on the input
    that is left ([instring[loc:]]) and returns the results and the input
    after the match, or [None] where pyparsing raises ParseException. *)

Module Pyparsing.
Import Re.

Inductive pyval : Type :=
| PyInt (z : Z)
| PyStr (text : str).

(** ParseResults: the list of tokens and the named results. *)
Record ParseResults : Type := mkParseResults {
  toklist : list pyval;
  tokdict : gmap str pyval
}.

Definition no_results : ParseResults := mkParseResults [] ∅.

(** [a += b]: tokens are appended, a name of [b] overrides the same name
    of [a]. *)
Definition add_results (a b : ParseResults) : ParseResults :=
  mkParseResults (toklist a ++ toklist b) (tokdict b ∪ tokdict a).

(** [results.name]: a name that was never set reads as the empty string. *)
Definition getattr (results : ParseResults) (name : str) : pyval :=
  default (PyStr []) (tokdict results !! name).

Inductive ParserElement : Type :=
| Word (chars : str) (exact : nat)
| Literal (matchString : str)
| Regex (pattern : regex)
| LineEnd
| And (e1 e2 : ParserElement)
| Optional (e : ParserElement)
| Suppress (e : ParserElement)
| setResultsName (e : ParserElement) (name : str)
| setParseAction (e : ParserElement) (fn : pyval -> pyval).

Definition DEFAULT_WHITE_CHARS : str := [SPACE; LF; TAB; CR].

(** The printable characters that are not white space, in the order of
    string.printable. *)
Definition printables : str :=
  u "0123456789abcdefghijklmnopqrstuvwxyzABCDEFGHIJKLMNOPQRSTUVWXYZ!" ++
  ["034"%char] ++ u "#$%&'()*+,-./:;<=>?@[\]^_`{|}~".

Definition nums : str := u "0123456789".

(** An enhancing element takes the whitespace characters of the element it
    wraps, a sequence those of its first element; LineEnd does not skip
    line feeds. *)
Fixpoint whiteChars (e : ParserElement) : str :=
  match e with
  | LineEnd => [SPACE; TAB; CR]
  | And e1 _ => whiteChars e1
  | Optional e1 | Suppress e1 => whiteChars e1
  | setResultsName e1 _ | setParseAction e1 _ => whiteChars e1
  | Word _ _ | Literal _ | Regex _ => DEFAULT_WHITE_CHARS
  end.

Fixpoint preParse (white : str) (input : str) : str :=
  match input with
  | c :: rest => if char_in white c then preParse white rest else input
  | [] => []
  end.

(** The longest run of at most [n] characters of [chars] at the head of the
    input, and the input after it. *)
Fixpoint take_chars (n : nat) (chars : str) (input : str) : str * str :=
  match n, input with
  | S n', c :: rest =>
      if char_in chars c
      then let '(tok, rest') := take_chars n' chars rest in (c :: tok, rest')
      else ([], input)
  | _, _ => ([], input)
  end.

Fixpoint strip_prefix (prefix input : str) : option str :=
  match prefix, input with
  | [], _ => Some input
  | p :: prefix', c :: rest =>
      if Ascii.eqb p c then strip_prefix prefix' rest else None
  | _ :: _, [] => None
  end.

Definition single (tok : pyval) : ParseResults := mkParseResults [tok] ∅.

(** Results under a name: the name refers to the first token. *)
Definition name_results (name : str) (r : ParseResults) : ParseResults :=
  match toklist r with
  | tok :: _ => mkParseResults (toklist r) (<[name := tok]> (tokdict r))
  | [] => r
  end.

(** A parse action that rewrites every token, listed or named. *)
Definition map_results (fn : pyval -> pyval) (r : ParseResults) : ParseResults :=
  mkParseResults (map fn (toklist r)) (fn <$> tokdict r).

Definition on_results (f : ParseResults -> ParseResults)
    (r : option (ParseResults * str)) : option (ParseResults * str) :=
  match r with
  | Some (res, rest) => Some (f res, rest)
  | None => None
  end.

(** [n] is the length of the whole input string (for [^] in a Regex). *)
Fixpoint _parse (n : nat) (e : ParserElement) (callPreParse : bool)
    (input : str) : option (ParseResults * str) :=
  let preloc := if callPreParse then preParse (whiteChars e) input else input in
  match e with
  | Word chars exact =>
      (* Word(chars, exact=k) with k > 0: at most [exact] characters are
         read and [exact] are required; the character after them is not
         looked at *)
      let '(tok, rest) := take_chars exact chars preloc in
      if (length tok <? exact)%nat then None
      else Some (single (PyStr tok), rest)
  | Literal matchString =>
      match strip_prefix matchString preloc with
      | Some rest => Some (single (PyStr matchString), rest)
      | None => None
      end
  | Regex pattern =>
      match match_at n pattern preloc with
      | Some (group, rest) => Some (single (PyStr group), rest)
      | None => None
      end
  | LineEnd =>
      match preloc with
      | [] => Some (no_results, [])
      | c :: rest =>
          if Ascii.eqb c LF then Some (single (PyStr [LF]), rest) else None
      end
  | And e1 e2 =>
      match _parse n e1 false preloc with
      | Some (r1, rest1) =>
          match _parse n e2 true rest1 with
          | Some (r2, rest2) => Some (add_results r1 r2, rest2)
          | None => None
          end
      | None => None
      end
  | Optional e1 =>
      match _parse n e1 false preloc with
      | Some res => Some res
      | None => Some (no_results, preloc)
      end
  | Suppress e1 =>
      match _parse n e1 false preloc with
      | Some (_, rest) => Some (no_results, rest)
      | None => None
      end
  | setResultsName e1 name =>
      on_results (name_results name) (_parse n e1 callPreParse input)
  | setParseAction e1 fn =>
      on_results (map_results fn) (_parse n e1 callPreParse input)
  end.

(** [element.parseString(instring)]: tabs are expanded first, text after
    the match is allowed. *)
Definition parseString (e : ParserElement) (instring : str) : option ParseResults :=
  let expanded := expandtabs instring in
  fst <$> _parse (length expanded) e true expanded.

(** The names an element can give to results. *)
Fixpoint results_names (e : ParserElement) : list str :=
  match e with
  | Word _ _ | Literal _ | Regex _ | LineEnd => []
  | And e1 e2 => results_names e1 ++ results_names e2
  | Optional e1 => results_names e1
  | Suppress _ => []
  | setResultsName e1 name => name :: results_names e1
  | setParseAction e1 _ => results_names e1
  end.

(** The characters an element can read, the white space it skips
    included; a Regex may read anything. *)
Fixpoint may_consume (e : ParserElement) (c : ascii) : bool :=
  match e with
  | Word chars _ => char_in chars c || char_in DEFAULT_WHITE_CHARS c
  | Literal matchString => char_in matchString c || char_in DEFAULT_WHITE_CHARS c
  | Regex _ => true
  | LineEnd => Ascii.eqb c LF || char_in [SPACE; TAB; CR] c
  | And e1 e2 => may_consume e1 c || may_consume e2 c
  | Optional e1 | Suppress e1 => may_consume e1 c
  | setResultsName e1 _ | setParseAction e1 _ => may_consume e1 c
  end.

Declare Scope pyparsing_scope.
Delimit Scope pyparsing_scope with pp.
Notation "a + b" := (And a b) : pyparsing_scope.

End Pyparsing.

(** ** Errors and timestamps *)

Module errors.

Inductive exn : Type :=
| UnableToParseFile (message : str)
| WrongPlugin
| InvalidTimestamp
| TypeError
| OtherError (name : str).

Inductive result (A : Type) : Type :=
| Returned (a : A)
| Raised (e : exn).
Arguments Returned {A} a.
Arguments Raised {A} e.

End errors.
Export errors.

Module timelib.
Import Pyparsing.

(** Modelled from the spec: the caller-provided time zone.  A time zone
    gives the offset from UTC, in seconds, of a local time (itself in
    seconds since 1970-01-01 00:00:00 read as if it were UTC). *)
Record tzinfo : Type := { utcoffset : Z -> Z }.

Definition UTC : tzinfo := {| utcoffset := fun _ => 0 |}.

(** Modelled from the spec: the calendar range of the fields, in the
    Gregorian calendar, years 1 to 9999. *)
Definition is_leap_year (year : Z) : bool :=
  ((year mod 4 =? 0) && negb (year mod 100 =? 0)) || (year mod 400 =? 0).

Definition days_in_month (year month : Z) : Z :=
  match month with
  | 1 | 3 | 5 | 7 | 8 | 10 | 12 => 31
  | 4 | 6 | 9 | 11 => 30
  | 2 => if is_leap_year year then 29 else 28
  | _ => 0
  end.

Definition in_calendar_range (year month day hour minutes seconds : Z) : bool :=
  (1 <=? year) && (year <=? 9999) &&
  (1 <=? month) && (month <=? 12) &&
  (1 <=? day) && (day <=? days_in_month year month) &&
  (0 <=? hour) && (hour <=? 23) &&
  (0 <=? minutes) && (minutes <=? 59) &&
  (0 <=? seconds) && (seconds <=? 59).

(** Modelled from the spec: the absolute instant of a valid date, counted
    in days from 0001-01-01 to the first day of [year] and of [month]. *)
Definition days_before_year (year : Z) : Z :=
  let y := year - 1 in 365 * y + y / 4 - y / 100 + y / 400.

Definition days_before_month (year month : Z) : Z :=
  fold_right (fun m acc => days_in_month year m + acc) 0
    (map Z.of_nat (seq 1 (Z.to_nat (month - 1)))).

Definition days_since_epoch (year month day : Z) : Z :=
  days_before_year year + days_before_month year month + (day - 1) - 719162.

(** Modelled from the spec: timelib.Timestamp.FromTimeParts, the Timestamp
    Normalizer, is not among the source files.  It takes the six fields as
    integers and the caller's time zone and returns an absolute instant,
    here the microseconds since 1970-01-01 00:00:00 UTC; it fails with
    InvalidTimestamp when a field is out of calendar range or the fields do
    not form a valid date and time.  A field that is not an integer is a
    type error of the call. *)
Definition FromTimeParts (year month day hour minutes seconds : pyval)
    (timezone : tzinfo) : result Z :=
  match year, month, day, hour, minutes, seconds with
  | PyInt y, PyInt mo, PyInt dd, PyInt h, PyInt mi, PyInt sec =>
      if in_calendar_range y mo dd h mi sec then
        let local := days_since_epoch y mo dd * 86400 + h * 3600 + mi * 60 + sec in
        Returned ((local - utcoffset timezone local) * 1000000)
      else Raised InvalidTimestamp
  | _, _, _, _, _, _ => Raised TypeError
  end.

End timelib.

(** ** Events, the mediator and plugins *)

Module Framework.
Import Pyparsing timelib.

Record EventObject : Type := mkEvent {
  DATA_TYPE : str;
  timestamp : Z;
  offset : Z;
  attributes : gmap str pyval
}.

(** The mediator: the time zone it supplies and the events produced so
    far, oldest first. *)
Record ParserMediator : Type := mkMediator {
  timezone : tzinfo;
  produced : list EventObject
}.

Definition ProduceEvent (event_object : EventObject) (mediator : ParserMediator)
    : ParserMediator :=
  mkMediator (timezone mediator) (produced mediator ++ [event_object]).

(** What a call of a plugin's Process leaves behind: the mediator and the
    attributes dictionary it was given, as it left them, and the exception
    it raised, if any. *)
Record ProcessResult : Type := mkProcessResult {
  mediator_after : ParserMediator;
  attributes_after : gmap str pyval;
  raised : option exn
}.

Record Plugin : Type := mkPlugin {
  REPORTER : str;
  Process : ParserMediator -> Z -> gmap str pyval -> ProcessResult
}.

End Framework.

(** ** plaso.parsers.text_parser: the constants the grammar is built from *)

Module text_parser.
Import Pyparsing.

(** Modelled from the spec: PyParseIntCast, the parse action of the numeric
    constants, is not among the source files; the date fields of a parsed
    record are integers.  The tokens it sees here are runs of digits; other
    text is cast to 0. *)
Definition PyParseIntCast (token : pyval) : pyval :=
  match token with
  | PyInt z => PyInt z
  | PyStr text =>
      if forallb Re.is_digit text && negb (length text =? 0)%nat
      then PyInt (int_of_digits text) else PyInt 0
  end.

Module PyparsingConstants.

(** Modelled from the spec: PyparsingConstants.YEAR is not among the
    source files; the date sub-patterns are fixed-width numeric tokens, four
    digits for the year. *)
Definition YEAR : ParserElement :=
  setParseAction (Word nums 4) PyParseIntCast.

(** Modelled from the spec: PyparsingConstants.TWO_DIGITS is not among the
    source files; two digits for each of the other date fields. *)
Definition TWO_DIGITS : ParserElement :=
  setParseAction (Word nums 2) PyParseIntCast.

End PyparsingConstants.
End text_parser.

(** ** The exim4 parser *)

(** Exim4LineEvent(timestamp, offset, attributes): a text event of data
    type exim4:line. *)
Definition Exim4LineEvent (timestamp offset : Z)
    (attributes : gmap PyStr.str Pyparsing.pyval) : Framework.EventObject :=
  Framework.mkEvent (u "exim4:line") timestamp offset attributes.

Module Exim4Parser.
Import Re Pyparsing timelib Framework text_parser.

Definition NAME : str := u "exim4".

Definition DESCRIPTION : str := u "Exim4 Parser".

Definition _ENCODING : str := u "utf-8".

(** r'^\d{4}-\d{2}-\d{2}\s\d{2}:\d{2}:\d{2}\s' *)
Definition _VERIFICATION_REGEX : regex :=
  Bol ⋅ rep 4 d ⋅ lit "-" ⋅ rep 2 d ⋅ lit "-" ⋅ rep 2 d ⋅ s ⋅
  rep 2 d ⋅ lit ":" ⋅ rep 2 d ⋅ lit ":" ⋅ rep 2 d ⋅ s.

Definition _REPORTER_CHARACTERS : str :=
  filter (fun c => negb (char_in (u ":[<") c) = true) printables.

Definition _FACILITY_CHARACTERS : str :=
  filter (fun c => negb (char_in (u ":>") c) = true) printables.

Module _PYPARSING_COMPONENTS.

Definition year : ParserElement :=
  setResultsName PyparsingConstants.YEAR (u "year").
Definition month : ParserElement :=
  setResultsName PyparsingConstants.TWO_DIGITS (u "month").
Definition day : ParserElement :=
  setResultsName PyparsingConstants.TWO_DIGITS (u "day").
Definition hour : ParserElement :=
  setResultsName PyparsingConstants.TWO_DIGITS (u "hour").
Definition minute : ParserElement :=
  setResultsName PyparsingConstants.TWO_DIGITS (u "minute").
Definition second : ParserElement :=
  setResultsName PyparsingConstants.TWO_DIGITS (u "second").

(** The date prefix a body must stop in front of,
    \w{3}\s+\d{1,2}\s\d{2}:\d{2}:\d{2}, and the same after a line feed. *)
Definition date_prefix : regex :=
  rep 3 w ⋅ plus s ⋅ (d ⋅ opt d) ⋅ s ⋅
  rep 2 d ⋅ lit ":" ⋅ rep 2 d ⋅ lit ":" ⋅ rep 2 d.

Definition next_line : regex := lit LF ⋅ date_prefix.

(** r'.*?(?=($|\n\w{3}\s+\d{1,2}\s\d{2}:\d{2}:\d{2}))' with re.DOTALL *)
Definition body_regex : regex :=
  Star false dot_all ⋅ Lookahead (Alt Eol next_line).

Definition body : ParserElement :=
  setResultsName (Regex body_regex) (u "body").

Definition date : ParserElement :=
  (year + Suppress (Literal (u "-")) +
   month + Suppress (Literal (u "-")) +
   day +
   hour + Suppress (Literal (u ":")) +
   minute + Suppress (Literal (u ":")) +
   second)%pp.

End _PYPARSING_COMPONENTS.

(** [pyparsing.lineEnd()] is a copy of the LineEnd element. *)
Definition _EXIM4_LINE : ParserElement :=
  (_PYPARSING_COMPONENTS.date +
   Optional (Suppress (Literal (u ":"))) +
   _PYPARSING_COMPONENTS.body + LineEnd)%pp.

Definition LINE_STRUCTURES : list (str * ParserElement) :=
  [(u "exim4_line", _EXIM4_LINE)].

Definition _SUPPORTED_KEYS : gset str :=
  list_to_set (map fst LINE_STRUCTURES).

(** The fields of a parser object.  [_plugin_classes] is the class-level
    table of the known plugins by name (a plugin class is represented by
    the object it constructs), [_plugin_objects] the active plugins that the
    base class keeps. *)
Record Exim4Parser : Type := mkParser {
  _plugin_classes : gmap str Plugin;
  _plugin_objects : list Plugin;
  _last_month : Z;
  _maximum_year : Z;
  _plugin_objects_by_reporter : gmap str Plugin;
  _year_use : Z
}.

Definition set_plugin_objects (objs : list Plugin) (self : Exim4Parser) :=
  mkParser (_plugin_classes self) objs (_last_month self)
    (_maximum_year self) (_plugin_objects_by_reporter self) (_year_use self).

Definition set_plugin_objects_by_reporter (index : gmap str Plugin)
    (self : Exim4Parser) :=
  mkParser (_plugin_classes self) (_plugin_objects self) (_last_month self)
    (_maximum_year self) index (_year_use self).

(** [__init__], on the object the base class has initialised. *)
Definition __init__ (self : Exim4Parser) : Exim4Parser :=
  mkParser (_plugin_classes self) (_plugin_objects self) 0 0 ∅ 0.

(** Modelled from the spec: the EnablePlugins of the base class is not
    among the source files.  With an include list that is empty or unset
    every known handler becomes active, otherwise only the handlers whose
    identity appears in the include list. *)
Definition wanted (plugin_includes : option (list str)) (plugin_name : str) : bool :=
  match plugin_includes with
  | None | Some [] => true
  | Some names => bool_decide (plugin_name ∈ names)
  end.

(** Modelled from the spec: the handlers that become active, in the order
    in which the table of known plugins lists them. *)
Definition active (plugin_includes : option (list str))
    (classes : gmap str Plugin) : list Plugin :=
  map snd (List.filter (fun item => wanted plugin_includes (fst item))
             (map_to_list classes)).

(** Modelled from the spec: the base class keeps the active handlers in
    [_plugin_objects]. *)
Definition base_EnablePlugins (plugin_includes : option (list str))
    (self : Exim4Parser) : Exim4Parser :=
  set_plugin_objects (active plugin_includes (_plugin_classes self)) self.

Definition EnablePlugins (plugin_includes : option (list str))
    (self : Exim4Parser) : Exim4Parser :=
  let self := base_EnablePlugins plugin_includes self in
  let self := set_plugin_objects_by_reporter ∅ self in
  fold_left
    (fun self plugin_object =>
       set_plugin_objects_by_reporter
         (<[REPORTER plugin_object := plugin_object]>
            (_plugin_objects_by_reporter self)) self)
    (_plugin_objects self) self.

(** The state a method call works on: the parser object and the mediator
    it is handed.  A method either returns or raises, and leaves a state
    behind in both cases. *)
Record World : Type := mkWorld {
  self : Exim4Parser;
  mediator : ParserMediator
}.

Definition M (A : Type) : Type := World -> World * result A.

Definition ret {A} (a : A) : M A := fun w => (w, Returned a).
Definition raise {A} (e : exn) : M A := fun w => (w, Raised e).
Definition bind {A B} (c : M A) (k : A -> M B) : M B :=
  fun w =>
    match c w with
    | (w', Returned a) => k a w'
    | (w', Raised e) => (w', Raised e)
    end.
Definition get_self : M Exim4Parser := fun w => (w, Returned (self w)).
Definition get_mediator : M ParserMediator := fun w => (w, Returned (mediator w)).
Definition put_mediator (m : ParserMediator) : M unit :=
  fun w => (mkWorld (self w) m, Returned tt).
Definition lift {A} (r : result A) : M A := fun w => (w, r).

#[export] Instance M_ret : MRet M := @ret.
#[export] Instance M_bind : MBind M := fun A B k c => bind c k.

(** [mediator.ProduceEvent(event_object)] *)
Definition produce (event_object : EventObject) : M unit :=
  m ← get_mediator; put_mediator (ProduceEvent event_object m).

(** [plugin_object.Process(mediator, timestamp, attributes)]: the plugin
    works on the mediator and on the very dictionary the caller holds; the
    caller sees the dictionary as the plugin left it. *)
Definition call_Process (plugin_object : Plugin) (timestamp : Z)
    (attributes : gmap str pyval) : M (gmap str pyval * option exn) :=
  m ← get_mediator;
  let r := Process plugin_object m timestamp attributes in
  put_mediator (mediator_after r);;
  mret (attributes_after r, raised r).

(** [dict.get(key, None)] on the index, whose keys are strings. *)
Definition dict_get (index : gmap str Plugin) (key : pyval) : option Plugin :=
  match key with
  | PyStr text => index !! text
  | PyInt _ => None
  end.

(** A plugin object is an instance and counts as true, so [not
    plugin_object] holds exactly when the lookup found nothing.  In the
    except branch [attributes] is the dictionary that was handed to
    Process, as Process left it. *)
Definition ParseRecord (key : str) (structure : ParseResults) : M unit :=
  if bool_decide (key ∉ _SUPPORTED_KEYS) then
    raise (UnableToParseFile (u "Unsupported key: " ++ key))
  else
    m ← get_mediator;
    timestamp ← lift (FromTimeParts
      (getattr structure (u "year")) (getattr structure (u "month"))
      (getattr structure (u "day")) (getattr structure (u "hour"))
      (getattr structure (u "minute")) (getattr structure (u "second"))
      (timezone m));
    let reporter := getattr structure (u "reporter") in
    let attributes : gmap str pyval :=
      {[ u "body" := getattr structure (u "body") ]} in
    self ← get_self;
    match dict_get (_plugin_objects_by_reporter self) reporter with
    | None => produce (Exim4LineEvent timestamp 0 attributes)
    | Some plugin_object =>
        outcome ← call_Process plugin_object timestamp attributes;
        match outcome with
        | (_, None) => mret tt
        | (attributes, Some WrongPlugin) =>
            produce (Exim4LineEvent timestamp 0 attributes)
        | (_, Some e) => raise e
        end
    end.

(** [re.match(self._VERIFICATION_REGEX, line) is not None] *)
Definition VerifyStructure (unused_mediator : ParserMediator) (line : str) : bool :=
  match re_match _VERIFICATION_REGEX line with
  | Some _ => true
  | None => false
  end.

End Exim4Parser.

(** ** Definitions used to state the properties *)

Module Statements.
Import Re Pyparsing timelib Framework Exim4Parser.

(** The timestamp normalization step of ParseRecord. *)
Definition time_parts (structure : ParseResults) (tz : tzinfo) : result Z :=
  FromTimeParts
    (getattr structure (u "year")) (getattr structure (u "month"))
    (getattr structure (u "day")) (getattr structure (u "hour"))
    (getattr structure (u "minute")) (getattr structure (u "second")) tz.

(** The attributes dictionary ParseRecord builds. *)
Definition parsed_attributes (structure : ParseResults) : gmap str pyval :=
  {[ u "body" := getattr structure (u "body") ]}.

(** The state after the generic event was produced. *)
Definition generic_event_produced (w : World) (timestamp : Z)
    (attributes : gmap str pyval) : World :=
  mkWorld (self w)
    (ProduceEvent (Exim4LineEvent timestamp 0 attributes) (mediator w)).

(** A parser object as constructed, with the given known plugins, and
    then set up with [EnablePlugins]. *)
Definition new_parser (classes : gmap str Plugin) : Exim4Parser :=
  __init__ (mkParser classes [] 0 0 ∅ 0).

Definition fresh_mediator : ParserMediator := mkMediator UTC [].

(** Plugins for the examples: one that accepts a record and produces an
    event of its own, one that declines, and one that notes its visit in
    the attributes before it declines. *)
Definition accepting_plugin (reporter : str) : Plugin :=
  mkPlugin reporter (fun m timestamp attributes =>
    mkProcessResult
      (ProduceEvent (mkEvent (u "example:accepted") timestamp 0 attributes) m)
      attributes None).

Definition declining_plugin (reporter : str) : Plugin :=
  mkPlugin reporter (fun m timestamp attributes =>
    mkProcessResult m attributes (Some WrongPlugin)).

Definition annotating_plugin (reporter : str) : Plugin :=
  mkPlugin reporter (fun m timestamp attributes =>
    mkProcessResult m (<[u "seen" := PyInt 1]> attributes) (Some WrongPlugin)).

Definition example_line : str :=
  u "2016-05-12 10:15:30 some_reporter: connection refused".

Definition out_of_range_line : str := u "2016-13-40 99:99:99 bad".

(** The structure the line matcher hands to ParseRecord for a line. *)
Definition structure_of (line : str) : ParseResults :=
  default no_results (parseString _EXIM4_LINE line).

Definition world_with (classes : gmap str Plugin) : World :=
  mkWorld (EnablePlugins None (new_parser classes)) fresh_mediator.

(** The index built from a list of plugin objects, a later plugin
    replacing an earlier one with the same reporter. *)
Definition index_of (objs : list Plugin) (index : gmap str Plugin)
    : gmap str Plugin :=
  fold_left (fun m p => <[REPORTER p := p]> m) objs index.

(** *** The body and its boundary *)

(** The text starts with the date prefix the body pattern looks ahead
    for.  The pattern has no [^], so it does not matter where in the
    subject string the text stands. *)
Definition dated (input : str) : bool :=
  accepts 0 _PYPARSING_COMPONENTS.date_prefix input.

(** Some line feed inside [text] is followed by a date prefix, read in
    [text] and the [rest] of the input after it. *)
Fixpoint dated_line_inside (text rest : str) : bool :=
  match text with
  | [] => false
  | c :: text' =>
      (Ascii.eqb c LF && dated (text' ++ rest)) || dated_line_inside text' rest
  end.


(** What can stand after a body: the end of the input, the line feed
    that ends the input, or a line feed and a dated line. *)
Definition follows_body (text rest : str) : Prop :=
  (rest = [] /\ last text <> Some LF) \/
  rest = [LF] \/
  (exists next, rest = LF :: next /\ dated next = true).

(** The results of the body element for a body text, and of a numeric
    field for a value. *)
Definition named_body (text : str) : ParseResults :=
  mkParseResults [PyStr text] {[ u "body" := PyStr text ]}.

Definition named_field (name : str) (v : Z) : ParseResults :=
  mkParseResults [PyInt v] {[ name := PyInt v ]}.

Definition date_results (year month day hour minute second : Z) : ParseResults :=
  mkParseResults
    [PyInt year; PyInt month; PyInt day; PyInt hour; PyInt minute; PyInt second]
    {[ u "year" := PyInt year; u "month" := PyInt month; u "day" := PyInt day;
       u "hour" := PyInt hour; u "minute" := PyInt minute;
       u "second" := PyInt second ]}.

(** *** Synthesized lines *)

Definition digit_char (m : Z) : ascii := ascii_of_N (Z.to_N (48 + m)).

(** A line in the format of the grammar,
    ['%04d-%02d-%02d %02d:%02d:%02d %s'], for fields that fit their
    widths. *)
Definition format_line (year month day hour minute second : Z) (body : str) : str :=
  zero_padded 4 year ++ "-"%char :: zero_padded 2 month ++ "-"%char ::
  zero_padded 2 day ++ SPACE :: zero_padded 2 hour ++ ":"%char ::
  zero_padded 2 minute ++ ":"%char :: zero_padded 2 second ++ SPACE :: body.

Definition date_fields_fit (year month day hour minute second : Z) : Prop :=
  0 <= year < 10000 /\ 0 <= month < 100 /\ 0 <= day < 100 /\
  0 <= hour < 100 /\ 0 <= minute < 100 /\ 0 <= second < 100.

(** The body does not begin with white space or with a colon. *)
Definition starts_plain (body : str) : bool :=
  match body with
  | [] => true
  | c :: _ => negb (char_in DEFAULT_WHITE_CHARS c) && negb (Ascii.eqb c ":")
  end.

Definition no_tab (text : str) : bool :=
  forallb (fun c => negb (Ascii.eqb c TAB)) text.

Definition has_fields (structure : ParseResults)
    (year month day hour minute second : Z) (body : str) : Prop :=
  getattr structure (u "year") = PyInt year /\
  getattr structure (u "month") = PyInt month /\
  getattr structure (u "day") = PyInt day /\
  getattr structure (u "hour") = PyInt hour /\
  getattr structure (u "minute") = PyInt minute /\
  getattr structure (u "second") = PyInt second /\
  getattr structure (u "body") = PyStr body.

(** *** The layout the verifier asks for *)

(** The line starts with one character of each class, in turn. *)
Fixpoint has_layout (classes : list (ascii -> bool)) (line : str) : bool :=
  match classes, line with
  | [], _ => true
  | p :: classes', c :: rest => p c && has_layout classes' rest
  | _ :: _, [] => false
  end.

(** dddd-dd-dd, a white space character, dd:dd:dd, a white space
    character. *)
Definition probe_layout : list (ascii -> bool) :=
  [is_digit; is_digit; is_digit; is_digit; Ascii.eqb "-";
   is_digit; is_digit; Ascii.eqb "-"; is_digit; is_digit; is_space;
   is_digit; is_digit; Ascii.eqb ":"; is_digit; is_digit; Ascii.eqb ":";
   is_digit; is_digit; is_space].

(** The date prefix the body stops in front of, read character by
    character: three word characters, white space, a day of one or two
    digits, a white space character and dd:dd:dd. *)
Definition time_layout : list (ascii -> bool) :=
  [is_space; is_digit; is_digit; Ascii.eqb ":"; is_digit; is_digit;
   Ascii.eqb ":"; is_digit; is_digit].

Definition dated_layout (input : str) : bool :=
  match input with
  | a :: b :: c :: sp :: rest =>
      is_word a && is_word b && is_word c && is_space sp &&
      (let day := skip_while is_space rest in
       has_layout (is_digit :: is_digit :: time_layout) day ||
       has_layout (is_digit :: time_layout) day)
  | _ => false
  end.

(** The characters of a date and time as the grammar reads it: digits,
    the two separators and white space. *)
Definition date_time_char (c : ascii) : bool :=
  is_digit c || char_in (u "-:") c || char_in DEFAULT_WHITE_CHARS c.

Definition multi_line_body : str :=
  u "first" ++ [LF] ++ u "  continued".

Definition dated_next_line : str := u "Jan  1 10:00:00 second".

End Statements.

(** ** Further definitions used to state the properties *)

Module Further.
Import Re Pyparsing timelib Framework text_parser Exim4Parser Statements.

(** The active plugins with a given reporter, in the order of
    [_plugin_objects]. *)
Definition with_reporter (reporter : str) (objs : list Plugin) : list Plugin :=
  List.filter (fun p => bool_decide (REPORTER p = reporter)) objs.

(** A plugin whose Process raises an exception other than WrongPlugin. *)
Definition failing_plugin (reporter : str) : Plugin :=
  mkPlugin reporter (fun m timestamp attributes =>
    mkProcessResult m attributes (Some (OtherError (u "ValueError")))).

Definition failing_world : World :=
  world_with {[ u "fail" := failing_plugin [] ]}.

(** Parsers for the examples: two known plugins with the same reporter,
    one known plugin for some_reporter, and a base object on which a
    plugin for the empty reporter is active. *)
Definition shared_reporter_parser : Exim4Parser :=
  new_parser {[ u "a" := accepting_plugin (u "r");
                u "b" := declining_plugin (u "r") ]}.

Definition some_reporter_parser : Exim4Parser :=
  new_parser {[ u "some" := accepting_plugin (u "some_reporter") ]}.

Definition empty_reporter_base : Exim4Parser :=
  EnablePlugins None (new_parser {[ u "any" := accepting_plugin [] ]}).

(** A character that [expandtabs] copies and counts as one column. *)
Definition plain_char (c : ascii) : bool :=
  negb (Ascii.eqb c TAB) && negb (Ascii.eqb c LF || Ascii.eqb c CR).

(** The grammar of the date up to the day, and its results. *)
Definition date_to_day : ParserElement :=
  (_PYPARSING_COMPONENTS.year + Suppress (Literal (u "-")) +
   _PYPARSING_COMPONENTS.month + Suppress (Literal (u "-")) +
   _PYPARSING_COMPONENTS.day)%pp.

Definition day_results (year month day : Z) : ParseResults :=
  add_results
    (add_results
       (add_results (add_results (named_field (u "year") year) no_results)
          (named_field (u "month") month))
       no_results)
    (named_field (u "day") day).

(** The example line with a form feed between the date and the time. *)
Definition form_feed_line : str :=
  u "2016-05-12" ++ ["012"%char] ++ u "10:15:30 Start queue run".

(** A line in the format of the grammar, and a text of two lines that
    ends with it. *)
Definition second_line : str := u "2016-05-12 10:15:31 second".

Definition two_lines : str := u "first" ++ [LF] ++ second_line.

(** The date and time in the format of the grammar. *)
Definition date_text (year month day hour minute second : Z) : str :=
  zero_padded 4 year ++ "-"%char :: zero_padded 2 month ++ "-"%char ::
  zero_padded 2 day ++ SPACE :: zero_padded 2 hour ++ ":"%char ::
  zero_padded 2 minute ++ ":"%char :: zero_padded 2 second.

(** What can stand between the seconds and the body: white space, then
    a colon or none, then white space. *)
Definition separator (before : str) (colon : bool) (after : str) : str :=
  before ++ (if colon then [":"%char] else []) ++ after.

Definition colon_line : str := u "2016-05-12 10:15:30: connection refused".

End Further.


(** * Properties *)

Import Re Pyparsing timelib Framework text_parser Exim4Parser Statements.
Import Further.

(** ** Dispatch *)

Lemma supported_key_iff (key : str) :
  key ∈ _SUPPORTED_KEYS <-> key = u "exim4_line".
Proof.
  unfold _SUPPORTED_KEYS, LINE_STRUCTURES. simpl.
  rewrite elem_of_union, elem_of_singleton, elem_of_empty. tauto.
Qed.

Lemma ParseRecord_unsupported (key : str) (structure : ParseResults) (w : World) :
  key ∉ _SUPPORTED_KEYS ->
  ParseRecord key structure w =
    (w, Raised (UnableToParseFile (u "Unsupported key: " ++ key))).
Proof.
  intros H. unfold ParseRecord. rewrite bool_decide_eq_true_2 by assumption.
  reflexivity.
Qed.

(** ParseRecord with a supported key, one case after the other. *)
Lemma ParseRecord_supported (key : str) (structure : ParseResults) (w : World) :
  key ∈ _SUPPORTED_KEYS ->
  ParseRecord key structure w =
    match time_parts structure (timezone (mediator w)) with
    | Raised e => (w, Raised e)
    | Returned timestamp =>
        let attributes := parsed_attributes structure in
        match dict_get (_plugin_objects_by_reporter (self w))
                (getattr structure (u "reporter")) with
        | None => (generic_event_produced w timestamp attributes, Returned tt)
        | Some plugin_object =>
            let r := Process plugin_object (mediator w) timestamp attributes in
            match raised r with
            | None => (mkWorld (self w) (mediator_after r), Returned tt)
            | Some WrongPlugin =>
                (generic_event_produced (mkWorld (self w) (mediator_after r))
                   timestamp (attributes_after r), Returned tt)
            | Some e => (mkWorld (self w) (mediator_after r), Raised e)
            end
        end
    end.
Proof.
  intros Hkey. unfold ParseRecord.
  rewrite bool_decide_eq_false_2 by (intros H; apply H, Hkey).
  unfold time_parts, mbind, M_bind, bind, get_mediator, lift. simpl.
  destruct (FromTimeParts _ _ _ _ _ _ _) as [timestamp|e]; [|reflexivity].
  destruct w as [p m]; simpl.
  destruct (dict_get _ _) as [plugin_object|]; [|reflexivity].
  unfold call_Process, mbind, M_bind, bind, get_mediator, put_mediator,
    mret, M_ret, ret; simpl.
  destruct (raised _) as [[]|]; reflexivity.
Qed.

Lemma example_line_parsed :
  parseString _EXIM4_LINE example_line =
    Some (structure_of example_line).
Proof. vm_compute. reflexivity. Qed.

Lemma example_time_parts :
  time_parts (structure_of example_line) UTC = Returned 1463048130000000.
Proof. vm_compute. reflexivity. Qed.

Lemma example_key_supported : u "exim4_line" ∈ _SUPPORTED_KEYS.
Proof. apply supported_key_iff. reflexivity. Qed.

(** C1, as the code has it.  For a supported key and a record whose date
    and time normalise to [timestamp]:
    - with no handler registered for the record's reporter, exactly one
      generic event is produced, with the timestamp and the parsed
      attributes unchanged;
    - when the registered handler's Process raises WrongPlugin, exactly one
      generic event is produced after whatever Process left in the
      mediator, with the timestamp and the attributes dictionary as Process
      left it; if Process left the mediator and the dictionary untouched the
      result is the result of the no-handler case;
    - when the registered handler's Process returns, the state is the one
      Process left: the dispatcher produces no event itself. *)
Theorem ParseRecord_dispatch_law
    (w : World) (key : str) (structure : ParseResults) (timestamp : Z) :
  key ∈ _SUPPORTED_KEYS ->
  time_parts structure (timezone (mediator w)) = Returned timestamp ->
  let attributes := parsed_attributes structure in
  let found := dict_get (_plugin_objects_by_reporter (self w))
                 (getattr structure (u "reporter")) in
  let no_handler_result :=
    (generic_event_produced w timestamp attributes, Returned tt) in
  (found = None -> ParseRecord key structure w = no_handler_result) /\
  (forall plugin_object, found = Some plugin_object ->
     let r := Process plugin_object (mediator w) timestamp attributes in
     (raised r = Some WrongPlugin ->
        ParseRecord key structure w =
          (generic_event_produced (mkWorld (self w) (mediator_after r))
             timestamp (attributes_after r), Returned tt) /\
        (mediator_after r = mediator w -> attributes_after r = attributes ->
           ParseRecord key structure w = no_handler_result)) /\
     (raised r = None ->
        ParseRecord key structure w =
          (mkWorld (self w) (mediator_after r), Returned tt))).
Proof.
  intros Hkey Htime attributes found no_handler_result.
  rewrite (ParseRecord_supported key structure w Hkey), Htime.
  fold attributes found. cbv zeta. split.
  - intros ->. reflexivity.
  - intros plugin_object ->. split.
    + intros ->. split; [reflexivity|].
      intros -> ->. subst no_handler_result. destruct w; reflexivity.
    + intros ->. reflexivity.
Qed.

(** The dispatch law at the example line, with a handler under the empty
    reporter that declines. *)
Lemma ParseRecord_dispatch_law_witness :
  let w := world_with {[ u "decline" := declining_plugin [] ]} in
  let structure := structure_of example_line in
  u "exim4_line" ∈ _SUPPORTED_KEYS /\
  time_parts structure (timezone (mediator w)) = Returned 1463048130000000 /\
  produced (mediator (ParseRecord (u "exim4_line") structure w).1) =
    [Exim4LineEvent 1463048130000000 0
       {[ u "body" := PyStr (u "some_reporter: connection refused") ]}].
Proof.
  intros w structure.
  split; [exact example_key_supported|].
  split; [exact example_time_parts|].
  destruct (ParseRecord_dispatch_law w (u "exim4_line") structure
              1463048130000000 example_key_supported example_time_parts)
    as [_ Hfound].
  destruct (Hfound (declining_plugin []) eq_refl) as [Hdeclined _].
  destruct (Hdeclined eq_refl) as [_ Hsame].
  rewrite (Hsame eq_refl eq_refl). reflexivity.
Defined.

(** A handler that adds an attribute before it raises WrongPlugin: the
    generic event carries the added attribute, so the result is not the
    one of the no-handler case. *)
Lemma ParseRecord_decline_not_identical :
  let structure := structure_of example_line in
  let w := world_with {[ u "annotate" := annotating_plugin [] ]} in
  let w0 := world_with ∅ in
  u "exim4_line" ∈ _SUPPORTED_KEYS /\
  (exists plugin_object,
     dict_get (_plugin_objects_by_reporter (self w))
       (getattr structure (u "reporter")) = Some plugin_object /\
     raised (Process plugin_object (mediator w) 1463048130000000
               (parsed_attributes structure)) = Some WrongPlugin) /\
  dict_get (_plugin_objects_by_reporter (self w0))
    (getattr structure (u "reporter")) = None /\
  mediator w = mediator w0 /\
  (attributes <$> produced (mediator (ParseRecord (u "exim4_line") structure w).1))
    !! 0%nat ≠
  (attributes <$> produced (mediator (ParseRecord (u "exim4_line") structure w0).1))
    !! 0%nat.
Proof.
  intros structure w w0.
  split; [exact example_key_supported|].
  split; [exists (annotating_plugin []); split; vm_compute; reflexivity|].
  split; [vm_compute; reflexivity|].
  split; [reflexivity|].
  intros H.
  apply (f_equal (fun o => o ≫= (fun a : gmap str pyval => a !! u "seen"))) in H.
  vm_compute in H. discriminate H.
Qed.

(** C7.  The supported keys are the one key exim4_line.  ParseRecord called
    with any other key raises UnableToParseFile, whatever the structure
    holds, and leaves parser and mediator as they were.  With the key
    exim4_line the key check passes: an UnableToParseFile that comes out of
    the call was raised by the Process of the plugin the record was
    dispatched to. *)
Theorem ParseRecord_key_check (w : World) (key : str) (structure : ParseResults) :
  (key ∈ _SUPPORTED_KEYS <-> key = u "exim4_line") /\
  (key ∉ _SUPPORTED_KEYS ->
     ParseRecord key structure w =
       (w, Raised (UnableToParseFile (u "Unsupported key: " ++ key)))) /\
  (key = u "exim4_line" ->
     forall message,
       (ParseRecord key structure w).2 = Raised (UnableToParseFile message) ->
       exists plugin_object timestamp attributes,
         dict_get (_plugin_objects_by_reporter (self w))
           (getattr structure (u "reporter")) = Some plugin_object /\
         raised (Process plugin_object (mediator w) timestamp attributes) =
           Some (UnableToParseFile message)).
Proof.
  split; [apply supported_key_iff|].
  split; [apply ParseRecord_unsupported|].
  intros Hkey message.
  rewrite (ParseRecord_supported key structure w)
    by (apply supported_key_iff; exact Hkey).
  unfold time_parts, FromTimeParts.
  destruct (getattr structure (u "year")); [|discriminate].
  destruct (getattr structure (u "month")); [|discriminate].
  destruct (getattr structure (u "day")); [|discriminate].
  destruct (getattr structure (u "hour")); [|discriminate].
  destruct (getattr structure (u "minute")); [|discriminate].
  destruct (getattr structure (u "second")); [|discriminate].
  destruct (in_calendar_range _ _ _ _ _ _); [|discriminate].
  cbv zeta.
  destruct (dict_get _ _) as [plugin_object|]; [|discriminate].
  destruct (raised _) as [e|] eqn:Hraised; [|discriminate].
  destruct e; simpl; try discriminate.
  intros [= <-]. eauto.
Qed.

(** The key check at a key the grammar does not define and at exim4_line
    with a parser that has no plugins. *)
Lemma ParseRecord_key_check_witness :
  (u "syslog_line" ∉ _SUPPORTED_KEYS) /\
  ParseRecord (u "syslog_line") (structure_of example_line) (world_with ∅) =
    (world_with ∅,
     Raised (UnableToParseFile (u "Unsupported key: syslog_line"))) /\
  (ParseRecord (u "exim4_line") (structure_of example_line) (world_with ∅)).2 =
    Returned tt.
Proof.
  assert (Hno : u "syslog_line" ∉ _SUPPORTED_KEYS).
  { intros H. apply supported_key_iff in H. discriminate H. }
  split; [exact Hno|]. split.
  - exact (proj1 (proj2 (ParseRecord_key_check (world_with ∅)
                           (u "syslog_line") (structure_of example_line))) Hno).
  - vm_compute. reflexivity.
Defined.

(** C8.  When the date and time fields of the record are integers out of
    calendar range, the timestamp normalization step of ParseRecord fails
    with InvalidTimestamp and ParseRecord ends with that failure: parser
    and mediator are as before, no event was produced.  The line
    2016-13-40 99:99:99 bad is such a record. *)
Theorem ParseRecord_invalid_timestamp
    (w : World) (key : str) (structure : ParseResults)
    (year month day hour minute second : Z) :
  key ∈ _SUPPORTED_KEYS ->
  getattr structure (u "year") = PyInt year ->
  getattr structure (u "month") = PyInt month ->
  getattr structure (u "day") = PyInt day ->
  getattr structure (u "hour") = PyInt hour ->
  getattr structure (u "minute") = PyInt minute ->
  getattr structure (u "second") = PyInt second ->
  in_calendar_range year month day hour minute second = false ->
  time_parts structure (timezone (mediator w)) = Raised InvalidTimestamp /\
  ParseRecord key structure w = (w, Raised InvalidTimestamp).
Proof.
  intros Hkey Hy Hmo Hd Hh Hmi Hs Hrange.
  assert (Htime : time_parts structure (timezone (mediator w)) =
                    Raised InvalidTimestamp).
  { unfold time_parts, FromTimeParts.
    rewrite Hy, Hmo, Hd, Hh, Hmi, Hs, Hrange. reflexivity. }
  split; [exact Htime|].
  rewrite (ParseRecord_supported key structure w Hkey), Htime. reflexivity.
Qed.

Lemma out_of_range_line_parsed :
  parseString _EXIM4_LINE out_of_range_line =
    Some (structure_of out_of_range_line).
Proof. vm_compute. reflexivity. Qed.

(** The line of the example scenario: it matches the grammar, its fields
    are out of range, and ParseRecord produces nothing. *)
Lemma ParseRecord_invalid_timestamp_witness :
  let structure := structure_of out_of_range_line in
  let w := world_with ∅ in
  is_Some (parseString _EXIM4_LINE out_of_range_line) /\
  u "exim4_line" ∈ _SUPPORTED_KEYS /\
  in_calendar_range 2016 13 40 99 99 99 = false /\
  ParseRecord (u "exim4_line") structure w = (w, Raised InvalidTimestamp) /\
  produced (mediator (ParseRecord (u "exim4_line") structure w).1) = [].
Proof.
  intros structure w.
  split; [rewrite out_of_range_line_parsed; eexists; reflexivity|].
  split; [exact example_key_supported|].
  split; [reflexivity|].
  destruct (ParseRecord_invalid_timestamp w (u "exim4_line") structure
              2016 13 40 99 99 99 example_key_supported
              eq_refl eq_refl eq_refl eq_refl eq_refl eq_refl eq_refl)
    as [_ H].
  split; [exact H|]. rewrite H. reflexivity.
Defined.

(** C10.  ParseRecord leaves the parser object as it found it, whatever
    the key, the structure and the plugins do: the index
    [_plugin_objects_by_reporter] and every other field are unchanged.
    What a call changes is the mediator.  The index is written by
    [__init__] and [EnablePlugins] only. *)
Theorem ParseRecord_preserves_parser
    (w : World) (key : str) (structure : ParseResults) :
  self (ParseRecord key structure w).1 = self w /\
  _plugin_objects_by_reporter (self (ParseRecord key structure w).1) =
    _plugin_objects_by_reporter (self w).
Proof.
  assert (H : self (ParseRecord key structure w).1 = self w).
  { destruct (decide (key ∈ _SUPPORTED_KEYS)) as [Hkey|Hkey].
    - rewrite (ParseRecord_supported key structure w Hkey).
      destruct (time_parts _ _); [|reflexivity]. cbv zeta.
      destruct (dict_get _ _); [|reflexivity].
      destruct (raised _) as [[]|]; reflexivity.
    - rewrite (ParseRecord_unsupported key structure w Hkey). reflexivity. }
  split; [exact H|]. rewrite H. reflexivity.
Qed.

(** C2, on the code.  The line of the example scenario matches the
    grammar; its reporter reads as the empty string and its body is the
    whole text after the time.  With an accepting handler registered for
    some_reporter the handler is not called: ParseRecord produces the
    generic event, with body some_reporter: connection refused. *)
Theorem example_line_not_dispatched :
  let structure := structure_of example_line in
  let w := world_with {[ u "some" := accepting_plugin (u "some_reporter") ]} in
  parseString _EXIM4_LINE example_line = Some structure /\
  is_Some (_plugin_objects_by_reporter (self w) !! u "some_reporter") /\
  getattr structure (u "reporter") = PyStr [] /\
  ParseRecord (u "exim4_line") structure w =
    (mkWorld (self w)
       (mkMediator UTC
          [Exim4LineEvent 1463048130000000 0
             {[ u "body" := PyStr (u "some_reporter: connection refused") ]}]),
     Returned tt).
Proof.
  intros structure w.
  split; [exact example_line_parsed|].
  split; [eexists; vm_compute; reflexivity|].
  split; vm_compute; reflexivity.
Qed.

(** ** The plugin index *)

Lemma fold_index (objs : list Plugin) (self : Exim4Parser) :
  fold_left
    (fun self plugin_object =>
       set_plugin_objects_by_reporter
         (<[REPORTER plugin_object := plugin_object]>
            (_plugin_objects_by_reporter self)) self) objs self =
  set_plugin_objects_by_reporter
    (index_of objs (_plugin_objects_by_reporter self)) self.
Proof.
  revert self. induction objs as [|p objs IH]; intros self; simpl.
  - destruct self; reflexivity.
  - rewrite IH. destruct self; reflexivity.
Qed.

Lemma EnablePlugins_eq inc self :
  EnablePlugins inc self =
    mkParser (_plugin_classes self) (active inc (_plugin_classes self))
      (_last_month self) (_maximum_year self)
      (index_of (active inc (_plugin_classes self)) ∅) (_year_use self).
Proof.
  unfold EnablePlugins. rewrite fold_index. reflexivity.
Qed.

Lemma index_of_lookup objs index reporter :
  is_Some (index_of objs index !! reporter) <->
  is_Some (index !! reporter) \/ exists p, In p objs /\ REPORTER p = reporter.
Proof.
  revert index. induction objs as [|q objs IH]; intros index; simpl.
  - split; [auto|]. intros [H|[p [[] _]]]. exact H.
  - rewrite IH. destruct (decide (REPORTER q = reporter)) as [Heq|Hne].
    + rewrite <- Heq, lookup_insert_eq. split.
      * intros _. right. exists q. auto.
      * intros _. left. eexists; reflexivity.
    + rewrite lookup_insert_ne by exact Hne. split.
      * intros [H|[p [Hin Hp]]]; [auto|]. right. exists p. auto.
      * intros [H|[p [[->|Hin] Hp]]]; [auto|contradiction|]. right. exists p. auto.
Qed.

Lemma filter_all {A} (l : list A) : List.filter (fun _ => true) l = l.
Proof. induction l; simpl; congruence. Qed.

Lemma filter_named_absent (X : str) (l : list (str * Plugin)) :
  (forall p, ~ In (X, p) l) ->
  List.filter (fun item => bool_decide (fst item ∈ [X])) l = [].
Proof.
  induction l as [|[name q] l IH]; intros H; simpl; [reflexivity|].
  destruct (decide (name = X)) as [->|Hne].
  - exfalso. apply (H q). left. reflexivity.
  - rewrite bool_decide_eq_false_2.
    + apply IH. intros p Hin. apply (H p). right. exact Hin.
    + rewrite list_elem_of_singleton. exact Hne.
Qed.

Lemma filter_named_present (X : str) (p : Plugin) (l : list (str * Plugin)) :
  NoDup (map fst l) -> In (X, p) l ->
  List.filter (fun item => bool_decide (fst item ∈ [X])) l = [(X, p)].
Proof.
  induction l as [|[name q] l IH]; intros Hnd Hin; simpl; [destruct Hin|].
  apply NoDup_cons in Hnd. destruct Hnd as [Hfresh Hnd]. simpl in Hfresh.
  destruct Hin as [[= -> ->]|Hin].
  - rewrite bool_decide_eq_true_2 by (apply list_elem_of_singleton; reflexivity).
    f_equal. apply filter_named_absent. intros p' Hin'. apply Hfresh.
    apply list_elem_of_In. apply (in_map fst) in Hin'. exact Hin'.
  - destruct (decide (name = X)) as [->|Hne].
    + exfalso. apply Hfresh. apply list_elem_of_In. apply (in_map fst) in Hin. exact Hin.
    + rewrite bool_decide_eq_false_2 by (rewrite list_elem_of_singleton; exact Hne).
      apply IH; assumption.
Qed.

Lemma active_single (X : str) (classes : gmap str Plugin) :
  active (Some [X]) classes =
    match classes !! X with Some p => [p] | None => [] end.
Proof.
  unfold active, wanted.
  destruct (classes !! X) as [p|] eqn:HX.
  - rewrite (filter_named_present X p); [reflexivity| |].
    + apply NoDup_fst_map_to_list.
    + apply list_elem_of_In, elem_of_map_to_list. exact HX.
  - rewrite filter_named_absent; [reflexivity|].
    intros p Hin. apply list_elem_of_In, elem_of_map_to_list in Hin. congruence.
Qed.

(** C6.  After EnablePlugins with an include list that is absent or empty
    the active plugins are all the known ones and the index has exactly
    their reporters.  After EnablePlugins with the include list [X] the
    index holds the reporter of the plugin named X and nothing else (it is
    empty if no plugin is named X).  The index after a call is determined
    by the include list and the known plugins alone: the state of the
    parser before the call, an earlier call included, leaves nothing in
    it. *)
Theorem EnablePlugins_law (self : Exim4Parser) :
  let known := _plugin_classes self in
  (forall plugin_includes, plugin_includes = None \/ plugin_includes = Some [] ->
     _plugin_objects (EnablePlugins plugin_includes self) =
       map snd (map_to_list known) /\
     forall reporter,
       is_Some (_plugin_objects_by_reporter
                  (EnablePlugins plugin_includes self) !! reporter) <->
       exists name plugin_object,
         known !! name = Some plugin_object /\
         REPORTER plugin_object = reporter) /\
  (forall X,
     _plugin_objects_by_reporter (EnablePlugins (Some [X]) self) =
       match known !! X with
       | Some plugin_object => {[ REPORTER plugin_object := plugin_object ]}
       | None => ∅
       end) /\
  (forall plugin_includes other,
     _plugin_classes other = known ->
     _plugin_objects_by_reporter (EnablePlugins plugin_includes other) =
       _plugin_objects_by_reporter (EnablePlugins plugin_includes self)) /\
  (forall plugin_includes earlier,
     _plugin_objects_by_reporter
       (EnablePlugins plugin_includes (EnablePlugins earlier self)) =
     _plugin_objects_by_reporter (EnablePlugins plugin_includes self)).
Proof.
  intros known. split; [|split; [|split]].
  - intros plugin_includes Hall.
    assert (Hactive : active plugin_includes known = map snd (map_to_list known)).
    { destruct Hall as [-> | ->]; unfold active, wanted;
        rewrite filter_all; reflexivity. }
    rewrite EnablePlugins_eq; simpl. fold known. rewrite Hactive.
    split; [reflexivity|].
    intros reporter. rewrite index_of_lookup. split.
    + intros [Hempty|[p [Hin Hp]]].
      * rewrite lookup_empty in Hempty. destruct Hempty as [? [=]].
      * apply in_map_iff in Hin.
        destruct Hin as [[name q] [Hq Hin]]. simpl in Hq. subst q.
        exists name, p. split; [|exact Hp].
        apply elem_of_map_to_list, list_elem_of_In. exact Hin.
    + intros [name [p [Hknown Hp]]]. right.
      exists p. split; [|exact Hp].
      apply in_map_iff. exists (name, p). split; [reflexivity|].
      apply list_elem_of_In, elem_of_map_to_list. exact Hknown.
  - intros X. rewrite EnablePlugins_eq; simpl. rewrite active_single. fold known.
    destruct (known !! X); reflexivity.
  - intros plugin_includes other Hother. rewrite !EnablePlugins_eq; simpl.
    rewrite Hother. reflexivity.
  - intros plugin_includes earlier. rewrite !EnablePlugins_eq; simpl. reflexivity.
Qed.

(** Two known plugins, all enabled, then only the one named a. *)
Lemma EnablePlugins_law_witness :
  let classes : gmap str Plugin :=
    {[ u "a" := accepting_plugin (u "ra"); u "b" := declining_plugin (u "rb") ]} in
  let all := EnablePlugins (Some []) (new_parser classes) in
  (forall reporter,
     is_Some (_plugin_objects_by_reporter all !! reporter) <->
     exists name plugin_object,
       classes !! name = Some plugin_object /\
       REPORTER plugin_object = reporter) /\
  is_Some (_plugin_objects_by_reporter all !! u "rb") /\
  _plugin_objects_by_reporter (EnablePlugins (Some [u "a"]) all) =
    {[ u "ra" := accepting_plugin (u "ra") ]}.
Proof.
  intros classes all.
  destruct (EnablePlugins_law (new_parser classes))
    as [Hall [Hone [_ Hagain]]].
  split; [exact (proj2 (Hall (Some []) (or_intror eq_refl)))|].
  split; [eexists; vm_compute; reflexivity|].
  unfold all. rewrite Hagain, Hone. reflexivity.
Defined.

(** ** The matcher and the body boundary *)

(** The rounds of a starred pattern are bounded by the length of the
    input: any larger bound gives the same matches. *)
Lemma iter_star_enough_fuel (greedy : bool) (step : str -> list str) :
  forall fuel1 fuel2 input,
    (length input <= fuel1)%nat -> (length input <= fuel2)%nat ->
    iter_star greedy step fuel1 input = iter_star greedy step fuel2 input.
Proof.
  assert (Hnil : forall fuel, iter_star greedy step fuel [] = [[]]).
  { intros [|fuel]; [reflexivity|]. cbn [iter_star length]. cbv zeta.
    match goal with
    | |- context [flat_map ?f (step [])] =>
        assert (Hmore : flat_map f (step []) = [])
          by (induction (step []) as [|x l IH]; [reflexivity|];
              cbn [flat_map]; rewrite IH; reflexivity);
        rewrite Hmore
    end.
    destruct greedy; reflexivity. }
  induction fuel1 as [|fuel1 IH]; intros fuel2 input H1 H2.
  - destruct input; [|simpl in H1; lia]. rewrite !Hnil. reflexivity.
  - destruct fuel2 as [|fuel2].
    { destruct input; [|simpl in H2; lia]. rewrite !Hnil. reflexivity. }
    cbn [iter_star]. cbv zeta.
    rewrite (flat_map_ext
               (fun rest => if (length rest <? length input)%nat
                            then iter_star greedy step fuel1 rest else [])
               (fun rest => if (length rest <? length input)%nat
                            then iter_star greedy step fuel2 rest else []));
      [reflexivity|].
    intros rest. destruct (length rest <? length input)%nat eqn:Hlt;
      [|reflexivity].
    apply Nat.ltb_lt in Hlt. apply IH; lia.
Qed.

Section Matcher.

Variable n : nat.

Lemma lazy_dot_all_suffixes (input : str) :
  matches n (Star false dot_all) input = suffixes input.
Proof.
  simpl. induction input as [|c rest IH]; [reflexivity|].
  simpl. rewrite app_nil_r.
  replace (length rest <? S (length rest))%nat with true
    by (symmetry; apply Nat.ltb_lt; lia).
  rewrite IH. reflexivity.
Qed.

Lemma matches_lookahead (r : regex) (input : str) :
  matches n (Lookahead r) input = if accepts n r input then [input] else [].
Proof. unfold accepts. simpl. destruct (matches n r input); reflexivity. Qed.

(** A lazy [.*?] in front of a lookahead stops at the first place where
    the lookahead holds. *)
Lemma lazy_scan (r : regex) (text rest : str) :
  (forall i, (i < length text)%nat -> accepts n r (drop i (text ++ rest)) = false) ->
  accepts n r rest = true ->
  match_at n (Star false dot_all ⋅ Lookahead r) (text ++ rest) = Some (text, rest).
Proof.
  intros Hbefore Hhere.
  assert (Hhead : exists others,
    matches n (Star false dot_all ⋅ Lookahead r) (text ++ rest) = rest :: others).
  { change (matches n (Star false dot_all ⋅ Lookahead r) (text ++ rest))
      with (flat_map (matches n (Lookahead r))
              (matches n (Star false dot_all) (text ++ rest))).
    rewrite lazy_dot_all_suffixes.
    induction text as [|c text IH].
    - cbn [app]. destruct rest as [|c rest]; cbn [suffixes flat_map];
        rewrite matches_lookahead, Hhere; eexists; reflexivity.
    - cbn [app suffixes flat_map]. rewrite matches_lookahead.
      pose proof (Hbefore 0%nat ltac:(simpl; lia)) as H0.
      cbn [drop app] in H0. rewrite H0. cbn [app].
      apply IH. intros i Hi. apply (Hbefore (S i)). simpl. lia. }
  destruct Hhead as [others Hhead]. unfold match_at. rewrite Hhead.
  rewrite length_app. replace (length text + length rest - length rest)%nat
    with (length text) by lia.
  rewrite take_app_length. reflexivity.
Qed.

Lemma matches_suffixes_sound (r : regex) (input rest : str) (others : list str) :
  flat_map (matches n (Lookahead r)) (suffixes input) = rest :: others ->
  accepts n r rest = true /\ exists text, input = text ++ rest.
Proof.
  induction input as [|c input IH]; cbn [suffixes flat_map];
    rewrite matches_lookahead.
  - destruct (accepts n r []) eqn:H; simpl; [|discriminate].
    intros [= <- _]. split; [exact H|]. exists []. reflexivity.
  - destruct (accepts n r (c :: input)) eqn:H; simpl.
    + intros [= <- _]. split; [exact H|]. exists []. reflexivity.
    + intros Hrest. destruct (IH Hrest) as [Hacc [text ->]].
      split; [exact Hacc|]. exists (c :: text). reflexivity.
Qed.

Lemma lazy_scan_inv (r : regex) (input group rest : str) :
  match_at n (Star false dot_all ⋅ Lookahead r) input = Some (group, rest) ->
  input = group ++ rest /\ accepts n r rest = true.
Proof.
  unfold match_at.
  change (matches n (Star false dot_all ⋅ Lookahead r) input)
    with (flat_map (matches n (Lookahead r)) (matches n (Star false dot_all) input)).
  rewrite lazy_dot_all_suffixes.
  destruct (flat_map _ _) as [|rest' others] eqn:H; [discriminate|].
  intros [= <- <-].
  destruct (matches_suffixes_sound r input rest' others H) as [Hacc [text ->]].
  split; [|exact Hacc].
  rewrite length_app.
  replace (length text + length rest' - length rest')%nat with (length text) by lia.
  rewrite take_app_length. reflexivity.
Qed.

Lemma accepts_alt (r1 r2 : regex) (input : str) :
  accepts n (Alt r1 r2) input = accepts n r1 input || accepts n r2 input.
Proof.
  unfold accepts. simpl.
  destruct (matches n r1 input); destruct (matches n r2 input); reflexivity.
Qed.

Lemma matches_chr_seq (p : ascii -> bool) (r : regex) (input : str) :
  matches n (Chr p ⋅ r) input =
    match input with
    | c :: rest => if p c then matches n r rest else []
    | [] => []
    end.
Proof.
  simpl. destruct input as [|c rest]; [reflexivity|].
  destruct (p c); simpl; [apply app_nil_r|reflexivity].
Qed.

Lemma accepts_chr_seq (p : ascii -> bool) (r : regex) (input : str) :
  accepts n (Chr p ⋅ r) input =
    match input with
    | c :: rest => p c && accepts n r rest
    | [] => false
    end.
Proof.
  unfold accepts. rewrite matches_chr_seq.
  destruct input as [|c rest]; [reflexivity|]. destruct (p c); reflexivity.
Qed.

Lemma accepts_Eol (input : str) :
  accepts n Eol input =
    match input with
    | [] => true
    | [c] => Ascii.eqb c LF
    | _ => false
    end.
Proof.
  unfold accepts. simpl. destruct input as [|c [|c' rest]]; try reflexivity.
  destruct (Ascii.eqb c LF); reflexivity.
Qed.

Lemma accepts_next_line (input : str) :
  accepts n _PYPARSING_COMPONENTS.next_line input =
    match input with
    | c :: rest => Ascii.eqb LF c && accepts n _PYPARSING_COMPONENTS.date_prefix rest
    | [] => false
    end.
Proof. unfold _PYPARSING_COMPONENTS.next_line, lit. apply accepts_chr_seq. Qed.

End Matcher.

Lemma accepts_chars_regex (n : nat) (classes : list (ascii -> bool)) (line : str) :
  accepts n (chars_regex classes) line = has_layout classes line.
Proof.
  revert line. induction classes as [|p classes IH]; intros line.
  - destruct line; reflexivity.
  - cbn [chars_regex]. rewrite accepts_chr_seq.
    destruct line as [|c rest]; [reflexivity|]. cbn [has_layout].
    rewrite IH. reflexivity.
Qed.

Lemma flat_map_assoc {A B C : Type} (f : A -> list B) (g : B -> list C)
    (l : list A) :
  flat_map g (flat_map f l) = flat_map (fun x => flat_map g (f x)) l.
Proof.
  induction l as [|x l IH]; [reflexivity|].
  cbn [flat_map]. rewrite flat_map_app, IH. reflexivity.
Qed.

Lemma matches_seq_assoc (n : nat) (r1 r2 r3 : regex) (input : str) :
  matches n ((r1 ⋅ r2) ⋅ r3) input = matches n (r1 ⋅ r2 ⋅ r3) input.
Proof. cbn [matches]. apply flat_map_assoc. Qed.

Lemma matches_then_regex (n : nat) (r k : regex) (input : str) :
  matches n (then_regex r k) input = matches n (r ⋅ k) input.
Proof.
  revert k input.
  induction r as [p| |r1 IH1 r2 IH2|r1 IH1 r2 IH2|greedy r1 IH1|r1 IH1| |];
    intros k input; try reflexivity.
  cbn [then_regex]. rewrite IH1, matches_seq_assoc.
  cbn [matches]. apply flat_map_ext. intros rest. apply IH2.
Qed.

Lemma matches_seq_empty (n : nat) (r : regex) (input : str) :
  matches n (r ⋅ Empty) input = matches n r input.
Proof.
  cbn [matches]. induction (matches n r input) as [|x l IH]; [reflexivity|].
  cbn [flat_map app]. rewrite IH. reflexivity.
Qed.

Lemma matches_bol_seq (n : nat) (r : regex) (input : str) :
  matches n (Bol ⋅ r) input =
    if (length input =? n)%nat then matches n r input else [].
Proof.
  cbn [matches]. destruct (length input =? n)%nat; [|reflexivity].
  cbn [flat_map]. apply app_nil_r.
Qed.

Lemma nonempty_app {A : Type} (l1 l2 : list A) :
  nonempty (l1 ++ l2) = nonempty l1 || nonempty l2.
Proof. destruct l1; reflexivity. Qed.

Lemma accepts_nonempty (n : nat) (r : regex) (input : str) :
  accepts n r input = nonempty (matches n r input).
Proof. reflexivity. Qed.

Lemma accepts_alt_seq (n : nat) (r1 r2 k : regex) (input : str) :
  accepts n (Alt r1 r2 ⋅ k) input =
    accepts n (r1 ⋅ k) input || accepts n (r2 ⋅ k) input.
Proof.
  rewrite !accepts_nonempty. cbn [matches].
  rewrite flat_map_app. apply nonempty_app.
Qed.

Lemma accepts_empty_seq (n : nat) (k : regex) (input : str) :
  accepts n (Empty ⋅ k) input = accepts n k input.
Proof.
  rewrite !accepts_nonempty. cbn [matches flat_map]. rewrite app_nil_r.
  reflexivity.
Qed.

(** A greedy run of a class in front of a pattern that cannot start with
    a character of the class: the run takes all of them. *)
Lemma accepts_greedy_run (n : nat) (p : ascii -> bool) (k : regex) :
  (forall c rest, p c = true -> accepts n k (c :: rest) = false) ->
  forall input,
    accepts n (Star true (Chr p) ⋅ k) input = accepts n k (skip_while p input).
Proof.
  intros Hk input. rewrite !accepts_nonempty.
  change (matches n (Star true (Chr p) ⋅ k) input)
    with (flat_map (matches n k)
            (iter_star true (matches n (Chr p)) (length input) input)).
  assert (Hstep : forall c rest,
            matches n (Chr p) (c :: rest) = if p c then [rest] else [])
    by reflexivity.
  generalize dependent (matches n (Chr p)). intros step Hstep.
  induction input as [|c rest IH].
  - cbn [length iter_star flat_map skip_while]. rewrite app_nil_r. reflexivity.
  - cbn [length iter_star skip_while]. rewrite Hstep.
    destruct (p c) eqn:Hc.
    + cbn [flat_map].
      replace (length rest <? S (length rest))%nat with true
        by (symmetry; apply Nat.ltb_lt; lia).
      rewrite app_nil_r, flat_map_app, nonempty_app, IH.
      cbn [flat_map]. rewrite app_nil_r, <- (accepts_nonempty n k (c :: rest)).
      rewrite (Hk c rest Hc).
      apply orb_false_r.
    + cbn [flat_map app]. rewrite app_nil_r. reflexivity.
Qed.

Lemma space_not_digit (c : ascii) : is_space c = true -> is_digit c = false.
Proof. destruct c as [[] [] [] [] [] [] [] []]; vm_compute; congruence. Qed.

Lemma has_layout_cons (p : ascii -> bool) (classes : list (ascii -> bool))
    (input : str) :
  has_layout (p :: classes) input =
    match input with
    | c :: rest => p c && has_layout classes rest
    | [] => false
    end.
Proof. destruct input; reflexivity. Qed.

(** The date prefix pattern, read character by character. *)
Lemma dated_layout_correct (input : str) : dated input = dated_layout input.
Proof.
  unfold dated, accepts.
  rewrite <- (matches_seq_empty 0 _PYPARSING_COMPONENTS.date_prefix),
    <- matches_then_regex.
  change (accepts 0
            (w ⋅ w ⋅ w ⋅ s ⋅ Star true s ⋅ d ⋅ Alt d Empty ⋅ chars_regex time_layout)
            input = dated_layout input).
  unfold w, s at 1. rewrite accepts_chr_seq.
  destruct input as [|a input]; [reflexivity|]. rewrite accepts_chr_seq.
  destruct input as [|b input]; [rewrite andb_false_r; reflexivity|].
  rewrite accepts_chr_seq.
  destruct input as [|c input]; [rewrite !andb_false_r; reflexivity|].
  rewrite accepts_chr_seq.
  destruct input as [|sp input]; [rewrite !andb_false_r; reflexivity|].
  cbn [dated_layout]. rewrite !andb_assoc. f_equal.
  unfold s. rewrite accepts_greedy_run.
  - unfold d at 1. rewrite accepts_chr_seq, !has_layout_cons.
    destruct (skip_while is_space input) as [|c1 day]; [reflexivity|].
    rewrite accepts_alt_seq, accepts_empty_seq, <- andb_orb_distrib_r.
    f_equal. f_equal.
    + unfold d. rewrite accepts_chr_seq, has_layout_cons.
      destruct day as [|c2 day]; [reflexivity|].
      rewrite accepts_chars_regex. reflexivity.
    + apply accepts_chars_regex.
  - intros c1 rest Hc1. unfold d at 1. rewrite accepts_chr_seq.
    rewrite (space_not_digit c1 Hc1). reflexivity.
Qed.

Lemma iter_star_ext (greedy : bool) (step step' : str -> list str) :
  (forall input, step input = step' input) ->
  forall fuel input,
    iter_star greedy step fuel input = iter_star greedy step' fuel input.
Proof.
  intros Hstep. induction fuel as [|fuel IH]; intros input; [reflexivity|].
  simpl. rewrite Hstep.
  rewrite (flat_map_ext _ (fun rest =>
    if (length rest <? length input)%nat
    then iter_star greedy step' fuel rest else [])); [reflexivity|].
  intros rest. rewrite IH. reflexivity.
Qed.

(** A pattern without [^] matches the same way wherever the input starts. *)
Lemma matches_bol_free (r : regex) :
  bol_free r = true ->
  forall n n' input, matches n r input = matches n' r input.
Proof.
  induction r as [p| |r1 IH1 r2 IH2|r1 IH1 r2 IH2|greedy r1 IH1|r1 IH1| |];
    simpl; intros Hfree n n' input; try reflexivity; try discriminate.
  - apply andb_true_iff in Hfree. destruct Hfree as [H1 H2].
    rewrite (IH1 H1 n n'). apply flat_map_ext. intros rest. apply IH2, H2.
  - apply andb_true_iff in Hfree. destruct Hfree as [H1 H2].
    rewrite (IH1 H1 n n'), (IH2 H2 n n'). reflexivity.
  - apply iter_star_ext. intros rest. apply IH1, Hfree.
  - rewrite (IH1 Hfree n n'). reflexivity.
Qed.

Lemma accepts_date_prefix (n : nat) (input : str) :
  accepts n _PYPARSING_COMPONENTS.date_prefix input = dated input.
Proof.
  unfold dated, accepts.
  rewrite (matches_bol_free _PYPARSING_COMPONENTS.date_prefix eq_refl n 0%nat).
  reflexivity.
Qed.

Lemma dated_line_inside_false (text rest : str) :
  dated_line_inside text rest = false ->
  forall before after, text = before ++ LF :: after ->
    dated (after ++ rest) = false.
Proof.
  revert rest. induction text as [|c text IH]; intros rest H before after Heq.
  - destruct before; discriminate Heq.
  - simpl in H. apply orb_false_iff in H. destruct H as [Hhere Hlater].
    destruct before as [|c' before]; simpl in Heq; injection Heq as -> ->.
    + rewrite Ascii.eqb_refl in Hhere. exact Hhere.
    + eapply IH; [exact Hlater|reflexivity].
Qed.

Lemma body_regex_stops (n : nat) (text rest : str) :
  dated_line_inside text rest = false ->
  follows_body text rest ->
  match_at n _PYPARSING_COMPONENTS.body_regex (text ++ rest) = Some (text, rest).
Proof.
  intros Hinside Hrest. unfold _PYPARSING_COMPONENTS.body_regex.
  apply lazy_scan.
  - intros i Hi. rewrite drop_app_le by lia.
    destruct (drop i text) as [|c after] eqn:Hdrop.
    { apply (f_equal length) in Hdrop. rewrite length_drop in Hdrop.
      simpl in Hdrop. lia. }
    assert (Htext : text = take i text ++ c :: after).
    { rewrite <- Hdrop. symmetry. apply take_drop. }
    rewrite accepts_alt, accepts_Eol, accepts_next_line, ?accepts_date_prefix.
    cbn [app].
    apply orb_false_iff. split.
    + destruct (after ++ rest) as [|c' l] eqn:Happ; [|reflexivity].
      apply app_eq_nil in Happ. destruct Happ as [-> ->].
      destruct Hrest as [[_ Hlast]|[Hrest|[next [Hrest _]]]]; try discriminate.
      apply Ascii.eqb_neq. intros ->. apply Hlast.
      rewrite Htext. rewrite last_app. reflexivity.
    + destruct (Ascii.eqb LF c) eqn:Hc; [|reflexivity].
      apply Ascii.eqb_eq in Hc. subst c. simpl.
      exact (dated_line_inside_false text rest Hinside _ _ Htext).
  - rewrite accepts_alt, accepts_Eol, accepts_next_line, ?accepts_date_prefix.
    destruct Hrest as [[-> _]|[->|[next [-> Hnext]]]]; try reflexivity.
    rewrite accepts_date_prefix, Hnext, Ascii.eqb_refl. apply orb_true_r.
Qed.

Lemma parse_body_regex (n : nat) (input text rest : str) :
  match_at n _PYPARSING_COMPONENTS.body_regex input = Some (text, rest) ->
  _parse n _PYPARSING_COMPONENTS.body false input = Some (named_body text, rest).
Proof.
  intros H. unfold _PYPARSING_COMPONENTS.body. cbn [_parse]. rewrite H.
  reflexivity.
Qed.



(** ** Digits *)

Lemma nums_is_digit (c : ascii) : char_in nums c = is_digit c.
Proof. destruct c as [[] [] [] [] [] [] [] []]; reflexivity. Qed.

Lemma digit_not_white (c : ascii) :
  is_digit c = true -> char_in DEFAULT_WHITE_CHARS c = false.
Proof. destruct c as [[] [] [] [] [] [] [] []]; vm_compute; congruence. Qed.

Lemma digit_not_tab (c : ascii) : is_digit c = true -> Ascii.eqb c TAB = false.
Proof. destruct c as [[] [] [] [] [] [] [] []]; vm_compute; congruence. Qed.

Lemma digit_char_spec (m : Z) :
  0 <= m <= 9 -> is_digit (digit_char m) = true /\ digit_value (digit_char m) = m.
Proof.
  intros H.
  assert (Hm : m = 0 \/ m = 1 \/ m = 2 \/ m = 3 \/ m = 4 \/ m = 5 \/ m = 6 \/
               m = 7 \/ m = 8 \/ m = 9) by lia.
  repeat (destruct Hm as [-> | Hm]; [split; reflexivity|]).
  subst m. split; reflexivity.
Qed.

Lemma zero_padded_length (width : nat) (v : Z) : length (zero_padded width v) = width.
Proof.
  revert v. induction width as [|width IH]; intros v; simpl; [reflexivity|].
  rewrite length_app, IH. simpl. lia.
Qed.

Lemma zero_padded_digits (width : nat) (v : Z) :
  forallb is_digit (zero_padded width v) = true.
Proof.
  revert v. induction width as [|width IH]; intros v; simpl; [reflexivity|].
  rewrite forallb_app, IH. simpl.
  assert (H : 0 <= v mod 10 <= 9) by (pose proof (Z.mod_pos_bound v 10); lia).
  destruct (digit_char_spec _ H) as [Hd _]. unfold digit_char in Hd.
  rewrite Hd. reflexivity.
Qed.

Lemma int_of_digits_snoc (digits : str) (c : ascii) :
  int_of_digits (digits ++ [c]) = 10 * int_of_digits digits + digit_value c.
Proof. unfold int_of_digits. rewrite fold_left_app. reflexivity. Qed.

Lemma int_of_zero_padded (width : nat) (v : Z) :
  0 <= v < 10 ^ Z.of_nat width -> int_of_digits (zero_padded width v) = v.
Proof.
  revert v. induction width as [|width IH]; intros v Hv.
  - simpl in *. unfold int_of_digits. simpl. lia.
  - simpl zero_padded. rewrite int_of_digits_snoc.
    assert (H : 0 <= v mod 10 <= 9) by (pose proof (Z.mod_pos_bound v 10); lia).
    destruct (digit_char_spec _ H) as [_ Hval]. unfold digit_char in Hval.
    rewrite Hval, IH.
    + pose proof (Z.div_mod v 10). lia.
    + rewrite Nat2Z.inj_succ, Z.pow_succ_r in Hv by lia.
      split; [apply Z.div_pos; lia|].
      apply Z.div_lt_upper_bound; lia.
Qed.

(** ** Steps of the grammar *)

Lemma take_chars_digits (digits rest : str) :
  forallb is_digit digits = true ->
  take_chars (length digits) nums (digits ++ rest) = (digits, rest).
Proof.
  induction digits as [|c digits IH]; intros H.
  - simpl. destruct rest; reflexivity.
  - simpl in H. apply andb_true_iff in H. destruct H as [Hc Hrest].
    cbn [length app take_chars]. rewrite nums_is_digit, Hc, (IH Hrest).
    reflexivity.
Qed.

Lemma preParse_digits (digits rest : str) :
  forallb is_digit digits = true -> digits <> [] ->
  preParse DEFAULT_WHITE_CHARS (digits ++ rest) = digits ++ rest.
Proof.
  destruct digits as [|c digits]; [congruence|]. intros H _.
  simpl in H. apply andb_true_iff in H. destruct H as [Hc _].
  cbn [app preParse]. rewrite (digit_not_white c Hc). reflexivity.
Qed.

Lemma parse_field (n : nat) (name : str) (width : nat) (v : Z)
    (callPreParse : bool) (rest : str) :
  (0 < width)%nat -> 0 <= v < 10 ^ Z.of_nat width ->
  _parse n (setResultsName (setParseAction (Word nums width) PyParseIntCast) name) callPreParse (zero_padded width v ++ rest) =
    Some (named_field name v, rest).
Proof.
  intros Hwidth Hv. cbn [_parse whiteChars].
  assert (Hpre : (if callPreParse
                  then preParse DEFAULT_WHITE_CHARS (zero_padded width v ++ rest)
                  else zero_padded width v ++ rest) = zero_padded width v ++ rest).
  { destruct callPreParse; [|reflexivity].
    apply preParse_digits; [apply zero_padded_digits|].
    intros Hnil. apply (f_equal length) in Hnil.
    rewrite zero_padded_length in Hnil. simpl in Hnil. lia. }
  rewrite Hpre.
  pose proof (take_chars_digits (zero_padded width v) rest
                (zero_padded_digits width v)) as Htake.
  rewrite zero_padded_length in Htake. rewrite Htake.
  rewrite zero_padded_length, Nat.ltb_irrefl.
  cbn [on_results]. f_equal. f_equal.
  unfold map_results, single, name_results, named_field. cbn [toklist tokdict map].
  rewrite fmap_empty. unfold PyParseIntCast.
  rewrite zero_padded_digits, zero_padded_length.
  replace (width =? 0)%nat with false by (symmetry; apply Nat.eqb_neq; lia).
  cbn [andb negb]. rewrite (int_of_zero_padded width v Hv). reflexivity.
Qed.

Lemma parse_And (n : nat) (e1 e2 : ParserElement) (callPreParse : bool)
    (input rest1 rest2 : str) (r1 r2 : ParseResults) :
  _parse n e1 false
    (if callPreParse then preParse (whiteChars e1) input else input) =
    Some (r1, rest1) ->
  _parse n e2 true rest1 = Some (r2, rest2) ->
  _parse n (And e1 e2) callPreParse input = Some (add_results r1 r2, rest2).
Proof. intros H1 H2. cbn [_parse whiteChars]. rewrite H1, H2. reflexivity. Qed.

Lemma parse_separator (n : nat) (c : ascii) (rest : str) :
  char_in DEFAULT_WHITE_CHARS c = false ->
  _parse n (Suppress (Literal [c])) true (c :: rest) = Some (no_results, rest).
Proof.
  intros Hc. cbn [_parse whiteChars preParse]. rewrite Hc.
  cbn [strip_prefix]. rewrite Ascii.eqb_refl. reflexivity.
Qed.

Lemma parse_field_spaced (n : nat) (name : str) (width : nat) (v : Z) (rest : str) :
  (0 < width)%nat -> 0 <= v < 10 ^ Z.of_nat width ->
  _parse n (setResultsName (setParseAction (Word nums width) PyParseIntCast) name) true (SPACE :: zero_padded width v ++ rest) =
    Some (named_field name v, rest).
Proof.
  intros Hwidth Hv. rewrite <- (parse_field n name width v true rest Hwidth Hv).
  reflexivity.
Qed.

Lemma parse_date (n : nat) (year month day hour minute second : Z) (rest : str) :
  date_fields_fit year month day hour minute second ->
  _parse n _PYPARSING_COMPONENTS.date true
    (zero_padded 4 year ++ "-"%char :: zero_padded 2 month ++ "-"%char ::
     zero_padded 2 day ++ SPACE :: zero_padded 2 hour ++ ":"%char ::
     zero_padded 2 minute ++ ":"%char :: zero_padded 2 second ++ rest) =
    Some (date_results year month day hour minute second, rest).
Proof.
  intros (Hy & Hmo & Hd & Hh & Hmi & Hs).
  unfold _PYPARSING_COMPONENTS.date, _PYPARSING_COMPONENTS.year,
    _PYPARSING_COMPONENTS.month, _PYPARSING_COMPONENTS.day,
    _PYPARSING_COMPONENTS.hour, _PYPARSING_COMPONENTS.minute,
    _PYPARSING_COMPONENTS.second, PyparsingConstants.YEAR,
    PyparsingConstants.TWO_DIGITS.
  etransitivity.
  { repeat (eapply parse_And; [cbv beta iota|]);
      [ cbn [whiteChars]; rewrite preParse_digits;
        [apply parse_field; [lia|exact Hy]
        |apply zero_padded_digits
        |intros Hnil; apply (f_equal length) in Hnil;
         rewrite zero_padded_length in Hnil; discriminate Hnil]
      | apply (parse_separator n "-"); reflexivity
      | apply parse_field; [lia|exact Hmo]
      | apply (parse_separator n "-"); reflexivity
      | apply parse_field; [lia|exact Hd]
      | apply parse_field_spaced; [lia|exact Hh]
      | apply (parse_separator n ":"); reflexivity
      | apply parse_field; [lia|exact Hmi]
      | apply (parse_separator n ":"); reflexivity
      | apply parse_field; [lia|exact Hs] ]. }
  reflexivity.
Qed.

Lemma starts_plain_preParse (body : str) :
  starts_plain body = true -> preParse DEFAULT_WHITE_CHARS body = body.
Proof.
  destruct body as [|c body]; [reflexivity|]. cbn [starts_plain].
  intros H. apply andb_true_iff in H. destruct H as [Hwhite _].
  apply negb_true_iff in Hwhite. cbn [preParse]. rewrite Hwhite. reflexivity.
Qed.

Lemma parse_optional_colon (n : nat) (body : str) :
  starts_plain body = true ->
  _parse n (Optional (Suppress (Literal (u ":")))) true (SPACE :: body) =
    Some (no_results, body).
Proof.
  intros H. cbn [_parse whiteChars].
  change (preParse DEFAULT_WHITE_CHARS (SPACE :: body))
    with (preParse DEFAULT_WHITE_CHARS body).
  rewrite (starts_plain_preParse body H).
  destruct body as [|c body]; [reflexivity|].
  cbn [starts_plain] in H. apply andb_true_iff in H. destruct H as [_ Hcolon].
  apply negb_true_iff in Hcolon.
  cbn [u list_ascii_of_string strip_prefix].
  rewrite Ascii.eqb_sym, Hcolon. reflexivity.
Qed.

Lemma parse_body (n : nat) (text rest : str) :
  starts_plain (text ++ rest) = true ->
  dated_line_inside text rest = false ->
  follows_body text rest ->
  _parse n _PYPARSING_COMPONENTS.body true (text ++ rest) =
    Some (named_body text, rest).
Proof.
  intros Hplain Hinside Hrest.
  rewrite <- (parse_body_regex n (text ++ rest) text rest
                (body_regex_stops n text rest Hinside Hrest)).
  unfold _PYPARSING_COMPONENTS.body. cbn [_parse whiteChars].
  rewrite (starts_plain_preParse _ Hplain). reflexivity.
Qed.

Lemma parse_LineEnd (n : nat) (text rest : str) :
  follows_body text rest ->
  exists r after,
    _parse n LineEnd true rest = Some (r, after) /\ tokdict r = ∅.
Proof.
  intros [[-> _]|[->|[next [-> _]]]].
  - exists no_results, []. split; reflexivity.
  - exists (single (PyStr [LF])), []. split; reflexivity.
  - exists (single (PyStr [LF])), next. split; reflexivity.
Qed.

Lemma parse_formatted_line (n : nat) (year month day hour minute second : Z)
    (text rest : str) :
  date_fields_fit year month day hour minute second ->
  starts_plain (text ++ rest) = true ->
  dated_line_inside text rest = false ->
  follows_body text rest ->
  exists structure after,
    _parse n _EXIM4_LINE true
      (format_line year month day hour minute second (text ++ rest)) =
      Some (structure, after) /\
    has_fields structure year month day hour minute second text.
Proof.
  intros Hfit Hplain Hinside Hrest.
  destruct (parse_LineEnd n text rest Hrest) as (r4 & after & Hend & Hdict).
  exists (add_results
            (add_results
               (add_results (date_results year month day hour minute second)
                  no_results) (named_body text)) r4), after.
  split.
  - unfold _EXIM4_LINE, format_line.
    eapply parse_And; [cbv beta iota|exact Hend].
    eapply parse_And; [cbv beta iota|exact (parse_body n text rest Hplain Hinside Hrest)].
    eapply parse_And; [cbv beta iota|exact (parse_optional_colon n _ Hplain)].
    exact (parse_date n year month day hour minute second _ Hfit).
  - unfold has_fields, getattr, add_results. cbn [tokdict].
    rewrite Hdict, (left_id_L ∅ (∪)).
    repeat split; reflexivity.
Qed.

Lemma expandtabs_no_tab (text : str) :
  no_tab text = true -> forall col, expandtabs_from col text = text.
Proof.
  induction text as [|c text IH]; intros H col; [reflexivity|].
  simpl in H. apply andb_true_iff in H. destruct H as [Hc Htext].
  apply negb_true_iff in Hc. cbn [expandtabs_from]. rewrite Hc.
  destruct (Ascii.eqb c LF || Ascii.eqb c CR); rewrite (IH Htext); reflexivity.
Qed.

Lemma no_tab_digits (width : nat) (v : Z) : no_tab (zero_padded width v) = true.
Proof.
  unfold no_tab. apply forallb_forall. intros c Hin.
  pose proof (zero_padded_digits width v) as Hd.
  rewrite forallb_forall in Hd. rewrite (digit_not_tab c (Hd c Hin)). reflexivity.
Qed.

Lemma no_tab_format_line (year month day hour minute second : Z) (body : str) :
  no_tab body = true ->
  no_tab (format_line year month day hour minute second body) = true.
Proof.
  intros H. unfold format_line, no_tab.
  repeat (rewrite forallb_app; fold (no_tab (zero_padded 4 year));
          fold (no_tab (zero_padded 2 month)); fold (no_tab (zero_padded 2 day));
          fold (no_tab (zero_padded 2 hour)); fold (no_tab (zero_padded 2 minute));
          fold (no_tab (zero_padded 2 second));
          rewrite no_tab_digits; cbn [forallb andb negb]).
  exact H.
Qed.

(** C9, as the code has it.  For a year of at most four digits and month,
    day, hour, minute and second of at most two, and a body that does not
    begin with white space or a colon, has no tab, does not end with a line
    feed and has no line feed followed by the date prefix pattern, the line
    synthesized from the values matches the grammar and the parsed record
    has exactly these values as its year, month, day, hour, minute, second
    and body. *)
Theorem line_round_trip (year month day hour minute second : Z) (body : str) :
  date_fields_fit year month day hour minute second ->
  starts_plain body = true ->
  no_tab body = true ->
  dated_line_inside body [] = false ->
  last body <> Some LF ->
  exists structure,
    parseString _EXIM4_LINE
      (format_line year month day hour minute second body) = Some structure /\
    has_fields structure year month day hour minute second body.
Proof.
  intros Hfit Hplain Htab Hinside Hlast.
  unfold parseString, expandtabs.
  rewrite (expandtabs_no_tab _ (no_tab_format_line _ _ _ _ _ _ _ Htab)).
  destruct (parse_formatted_line
              (length (format_line year month day hour minute second body))
              year month day hour minute second body [] Hfit)
    as (structure & after & Hparse & Hfields).
  - rewrite app_nil_r. exact Hplain.
  - exact Hinside.
  - left. split; [reflexivity|exact Hlast].
  - rewrite app_nil_r in Hparse. exists structure. rewrite Hparse.
    split; [reflexivity|exact Hfields].
Qed.

(** The round trip at the line of the example scenario. *)
Lemma line_round_trip_witness :
  exists structure,
    parseString _EXIM4_LINE example_line = Some structure /\
    has_fields structure 2016 5 12 10 15 30
      (u "some_reporter: connection refused").
Proof.
  apply (line_round_trip 2016 5 12 10 15 30 (u "some_reporter: connection refused")).
  - unfold date_fields_fit. lia.
  - reflexivity.
  - reflexivity.
  - vm_compute. reflexivity.
  - vm_compute. discriminate.
Defined.

(** Two bodies that do not come back: the grammar takes a leading colon
    as the optional separator, and it ends the body in front of a dated
    line. *)
Lemma line_round_trip_fails :
  (exists structure,
     parseString _EXIM4_LINE (format_line 2016 5 12 10 15 30 (u ":x")) =
       Some structure /\
     getattr structure (u "body") = PyStr (u "x")) /\
  (exists structure,
     parseString _EXIM4_LINE
       (format_line 2016 5 12 10 15 30
          (u "first" ++ [LF] ++ u "Jan  1 10:00:00 second")) = Some structure /\
     getattr structure (u "body") = PyStr (u "first")).
Proof.
  split; eexists; (split; [vm_compute; reflexivity|vm_compute; reflexivity]).
Qed.

(** ** The verifier *)

Lemma VerifyStructure_has_layout (unused_mediator : ParserMediator) (line : str) :
  VerifyStructure unused_mediator line = has_layout probe_layout line.
Proof.
  rewrite <- (accepts_chars_regex (length line)).
  unfold VerifyStructure, re_match, match_at, accepts, _VERIFICATION_REGEX.
  match goal with
  | |- context [matches _ (Bol ⋅ ?r) line] =>
      assert (H : matches (length line) (Bol ⋅ r) line =
                  matches (length line) (chars_regex probe_layout) line)
  end.
  { rewrite matches_bol_seq, Nat.eqb_refl.
    match goal with
    | |- matches _ ?r _ = _ =>
        rewrite <- (matches_seq_empty _ r), <- matches_then_regex
    end.
    reflexivity. }
  rewrite H. clear H.
  destruct (matches (length line) (chars_regex probe_layout) line); reflexivity.
Qed.




(** ** The names and the text of a match *)

Lemma parse_names (n : nat) (e : ParserElement) :
  forall callPreParse input r rest,
    _parse n e callPreParse input = Some (r, rest) ->
    forall name, is_Some (tokdict r !! name) -> In name (results_names e).
Proof.
  induction e as [chars exact|matchString|pattern| |e1 IH1 e2 IH2|e1 IH1|e1 IH1
                 |e1 IH1 name'|e1 IH1 fn];
    intros callPreParse input r rest Hparse name Hname; cbn [_parse] in Hparse.
  - destruct (take_chars _ _ _) as [tok rest'].
    destruct (_ <? _)%nat; [discriminate|]. injection Hparse as <- <-.
    cbn in Hname. rewrite lookup_empty in Hname. destruct Hname as [? [=]].
  - destruct (strip_prefix _ _); [|discriminate]. injection Hparse as <- <-.
    cbn in Hname. rewrite lookup_empty in Hname. destruct Hname as [? [=]].
  - destruct (match_at _ _ _) as [[group rest']|]; [|discriminate].
    injection Hparse as <- <-.
    cbn in Hname. rewrite lookup_empty in Hname. destruct Hname as [? [=]].
  - destruct (if callPreParse then _ else _) as [|c rest'].
    + injection Hparse as <- <-.
      cbn in Hname. rewrite lookup_empty in Hname. destruct Hname as [? [=]].
    + destruct (Ascii.eqb c LF); [|discriminate]. injection Hparse as <- <-.
      cbn in Hname. rewrite lookup_empty in Hname. destruct Hname as [? [=]].
  - destruct (_parse n e1 false _) as [[r1 rest1]|] eqn:H1; [|discriminate].
    destruct (_parse n e2 true rest1) as [[r2 rest2]|] eqn:H2; [|discriminate].
    injection Hparse as <- <-. cbn [results_names]. apply in_or_app.
    cbn [add_results tokdict] in Hname.
    apply lookup_union_is_Some in Hname. destruct Hname as [Hname|Hname].
    + right. exact (IH2 _ _ _ _ H2 name Hname).
    + left. exact (IH1 _ _ _ _ H1 name Hname).
  - destruct (_parse n e1 false _) as [[r1 rest1]|] eqn:H1.
    + injection Hparse as <- <-. exact (IH1 _ _ _ _ H1 name Hname).
    + injection Hparse as <- <-.
      cbn in Hname. rewrite lookup_empty in Hname. destruct Hname as [? [=]].
  - destruct (_parse n e1 false _) as [[r1 rest1]|] eqn:H1; [|discriminate].
    injection Hparse as <- <-.
    cbn in Hname. rewrite lookup_empty in Hname. destruct Hname as [? [=]].
  - destruct (_parse n e1 callPreParse input) as [[r1 rest1]|] eqn:H1;
      [|discriminate].
    cbn [on_results] in Hparse. injection Hparse as <- <-.
    cbn [results_names]. unfold name_results in Hname.
    destruct (toklist r1) as [|tok toks].
    + right. exact (IH1 _ _ _ _ H1 name Hname).
    + cbn [tokdict] in Hname. apply lookup_insert_is_Some in Hname.
      destruct Hname as [<-|[_ Hname]]; [left; reflexivity|].
      right. exact (IH1 _ _ _ _ H1 name Hname).
  - destruct (_parse n e1 callPreParse input) as [[r1 rest1]|] eqn:H1;
      [|discriminate].
    cbn [on_results] in Hparse. injection Hparse as <- <-.
    cbn [results_names]. apply (IH1 _ _ _ _ H1 name).
    cbn [map_results tokdict] in Hname. rewrite lookup_fmap in Hname.
    apply fmap_is_Some in Hname. exact Hname.
Qed.

Lemma reporter_not_named : ~ In (u "reporter") (results_names _EXIM4_LINE).
Proof.
  cbn. intros H.
  repeat (destruct H as [H|H]; [discriminate H|]). exact H.
Qed.

Lemma reporter_unset (n : nat) (callPreParse : bool) (input rest : str)
    (structure : ParseResults) :
  _parse n _EXIM4_LINE callPreParse input = Some (structure, rest) ->
  getattr structure (u "reporter") = PyStr [].
Proof.
  intros H. unfold getattr.
  destruct (tokdict structure !! u "reporter") as [v|] eqn:Hv; [|reflexivity].
  exfalso. apply reporter_not_named.
  apply (parse_names n _ _ _ _ _ H). rewrite Hv. eexists; reflexivity.
Qed.

(** ** What a match reads *)

Lemma iter_star_suffix (greedy : bool) (step : str -> list str) :
  (forall input rest, In rest (step input) -> exists text, input = text ++ rest) ->
  forall fuel input rest,
    In rest (iter_star greedy step fuel input) -> exists text, input = text ++ rest.
Proof.
  intros Hstep. induction fuel as [|fuel IH]; intros input rest Hin.
  - destruct Hin as [<-|[]]. exists []. reflexivity.
  - cbn [iter_star] in Hin.
    assert (Hmore : In rest
              (flat_map (fun rest0 =>
                 if (length rest0 <? length input)%nat
                 then iter_star greedy step fuel rest0 else []) (step input)) ->
            exists text, input = text ++ rest).
    { intros H. apply in_flat_map in H. destruct H as (mid & Hmid & Hrest).
      destruct (length mid <? length input)%nat; [|destruct Hrest].
      destruct (Hstep _ _ Hmid) as [t1 ->]. destruct (IH _ _ Hrest) as [t2 ->].
      exists (t1 ++ t2). rewrite app_assoc. reflexivity. }
    destruct greedy.
    + apply in_app_or in Hin. destruct Hin as [H|[<-|[]]]; [auto|].
      exists []. reflexivity.
    + destruct Hin as [<-|H]; [|auto]. exists []. reflexivity.
Qed.

(** What is left after a match is the end of the input. *)
Lemma matches_suffix (n : nat) (r : regex) :
  forall input rest, In rest (matches n r input) -> exists text, input = text ++ rest.
Proof.
  induction r as [p| |r1 IH1 r2 IH2|r1 IH1 r2 IH2|greedy r1 IH1|r1 IH1| |];
    intros input rest Hin; cbn [matches] in Hin.
  - destruct input as [|c input]; [destruct Hin|].
    destruct (p c); [|destruct Hin]. destruct Hin as [<-|[]].
    exists [c]. reflexivity.
  - destruct Hin as [<-|[]]. exists []. reflexivity.
  - apply in_flat_map in Hin. destruct Hin as (mid & Hmid & Hrest).
    destruct (IH1 _ _ Hmid) as [t1 ->]. destruct (IH2 _ _ Hrest) as [t2 ->].
    exists (t1 ++ t2). rewrite app_assoc. reflexivity.
  - apply in_app_or in Hin. destruct Hin as [H|H]; eauto.
  - exact (iter_star_suffix greedy _ IH1 _ _ _ Hin).
  - destruct (matches n r1 input); [destruct Hin|].
    destruct Hin as [<-|[]]. exists []. reflexivity.
  - destruct (_ =? _)%nat; [|destruct Hin].
    destruct Hin as [<-|[]]. exists []. reflexivity.
  - destruct input as [|c [|c' input]].
    + destruct Hin as [<-|[]]. exists []. reflexivity.
    + destruct (Ascii.eqb c LF); [|destruct Hin].
      destruct Hin as [<-|[]]. exists []. reflexivity.
    + destruct Hin.
Qed.

Lemma match_at_split (n : nat) (r : regex) (input group rest : str) :
  match_at n r input = Some (group, rest) -> input = group ++ rest.
Proof.
  unfold match_at. destruct (matches n r input) as [|rest' others] eqn:H;
    [discriminate|].
  intros [= <- <-].
  destruct (matches_suffix n r input rest') as [text ->].
  { rewrite H. left. reflexivity. }
  rewrite length_app.
  replace (length text + length rest' - length rest')%nat with (length text) by lia.
  rewrite take_app_length. reflexivity.
Qed.

Lemma preParse_split (white input : str) :
  exists skipped,
    input = skipped ++ preParse white input /\
    forallb (char_in white) skipped = true.
Proof.
  induction input as [|c input IH].
  - exists []. split; reflexivity.
  - cbn [preParse]. destruct (char_in white c) eqn:Hc.
    + destruct IH as (skipped & Heq & Hall). exists (c :: skipped). split.
      * cbn [app]. rewrite <- Heq. reflexivity.
      * cbn [forallb]. rewrite Hc, Hall. reflexivity.
    + exists []. split; reflexivity.
Qed.

Lemma take_chars_split (k : nat) (chars input tok rest : str) :
  take_chars k chars input = (tok, rest) ->
  input = tok ++ rest /\ forallb (char_in chars) tok = true.
Proof.
  revert input tok rest. induction k as [|k IH]; intros input tok rest H.
  - cbn in H. injection H as <- <-. split; reflexivity.
  - destruct input as [|c input]; cbn [take_chars] in H.
    + injection H as <- <-. split; reflexivity.
    + destruct (char_in chars c) eqn:Hc.
      * destruct (take_chars k chars input) as [tok' rest'] eqn:Htake.
        injection H as <- <-. destruct (IH _ _ _ Htake) as [-> Hall].
        split; [reflexivity|]. cbn [forallb]. rewrite Hc, Hall. reflexivity.
      * injection H as <- <-. split; reflexivity.
Qed.

Lemma strip_prefix_split (prefix input rest : str) :
  strip_prefix prefix input = Some rest -> input = prefix ++ rest.
Proof.
  revert input. induction prefix as [|p prefix IH]; intros input H.
  - cbn in H. injection H as ->. reflexivity.
  - destruct input as [|c input]; [discriminate|]. cbn [strip_prefix] in H.
    destruct (Ascii.eqb p c) eqn:Hpc; [|discriminate].
    apply Ascii.eqb_eq in Hpc. subst c. rewrite (IH _ H). reflexivity.
Qed.

Lemma forallb_weaken {A : Type} (p q : A -> bool) (l : list A) :
  (forall x, p x = true -> q x = true) ->
  forallb p l = true -> forallb q l = true.
Proof.
  intros Hpq H. apply forallb_forall. intros x Hx.
  rewrite forallb_forall in H. auto.
Qed.

Lemma whiteChars_consumed (e : ParserElement) (c : ascii) :
  char_in (whiteChars e) c = true -> may_consume e c = true.
Proof.
  induction e as [chars exact|matchString|pattern| |e1 IH1 e2 IH2|e1 IH1|e1 IH1
                 |e1 IH1 name'|e1 IH1 fn]; cbn [whiteChars may_consume]; intros H;
    auto.
  - rewrite H. apply orb_true_r.
  - rewrite H. apply orb_true_r.
  - rewrite H. apply orb_true_r.
  - rewrite (IH1 H). reflexivity.
Qed.

Lemma preloc_split (e : ParserElement) (callPreParse : bool) (input : str) :
  exists skipped,
    input = skipped ++
      (if callPreParse then preParse (whiteChars e) input else input) /\
    forallb (may_consume e) skipped = true.
Proof.
  destruct callPreParse; [|exists []; split; reflexivity].
  destruct (preParse_split (whiteChars e) input) as (skipped & Heq & Hall).
  exists skipped. split; [exact Heq|].
  exact (forallb_weaken _ _ _ (whiteChars_consumed e) Hall).
Qed.

Ltac name_preloc e :=
  match goal with
  | Hparse : _parse _ e ?callPreParse ?input = _ |- _ =>
      let skipped := fresh "skipped" in
      let Heq := fresh "Heq" in
      let Hskipped := fresh "Hskipped" in
      destruct (preloc_split e callPreParse input) as (skipped & Heq & Hskipped);
      cbn [_parse] in Hparse;
      set (preloc := if callPreParse then _ else _) in *;
      clearbody preloc; subst input
  end.

(** An element reads a stretch of the input made of characters it may
    consume, and leaves the rest. *)
Lemma parse_consumed (n : nat) (e : ParserElement) :
  forall callPreParse input r rest,
    _parse n e callPreParse input = Some (r, rest) ->
    exists consumed,
      input = consumed ++ rest /\ forallb (may_consume e) consumed = true.
Proof.
  induction e as [chars exact|matchString|pattern| |e1 IH1 e2 IH2|e1 IH1|e1 IH1
                 |e1 IH1 name'|e1 IH1 fn];
    intros callPreParse input r rest Hparse;
    [name_preloc (Word chars exact)|name_preloc (Literal matchString)
    |name_preloc (Regex pattern)|name_preloc LineEnd|name_preloc (And e1 e2)
    |name_preloc (Optional e1)|name_preloc (Suppress e1)
    |cbn [_parse] in Hparse|cbn [_parse] in Hparse].
  - destruct (take_chars _ _ _) as [tok rest'] eqn:Htake.
    destruct (_ <? _)%nat; [discriminate|]. injection Hparse as <- <-.
    destruct (take_chars_split _ _ _ _ _ Htake) as [-> Htok].
    exists (skipped ++ tok). rewrite app_assoc. split; [reflexivity|].
    rewrite forallb_app, Hskipped. cbn [andb may_consume].
    apply (forallb_weaken _ _ _ (fun c H => orb_true_intro _ _ (or_introl H)) Htok).
  - destruct (strip_prefix _ _) as [rest'|] eqn:Hstrip; [|discriminate].
    injection Hparse as <- <-. rewrite (strip_prefix_split _ _ _ Hstrip).
    exists (skipped ++ matchString). rewrite app_assoc. split; [reflexivity|].
    rewrite forallb_app, Hskipped. cbn [andb may_consume].
    apply forallb_forall. intros c Hc. apply orb_true_intro. left.
    unfold char_in. apply existsb_exists. exists c. split; [exact Hc|].
    apply Ascii.eqb_refl.
  - destruct (match_at _ _ _) as [[group rest']|] eqn:Hmatch; [|discriminate].
    injection Hparse as <- <-. rewrite (match_at_split _ _ _ _ _ Hmatch).
    exists (skipped ++ group). rewrite app_assoc. split; [reflexivity|].
    apply forallb_forall. reflexivity.
  - destruct preloc as [|c rest'].
    + injection Hparse as <- <-. exists skipped. split; [reflexivity|exact Hskipped].
    + destruct (Ascii.eqb c LF) eqn:Hc; [|discriminate]. injection Hparse as <- <-.
      exists (skipped ++ [c]). rewrite <- app_assoc. split; [reflexivity|].
      rewrite forallb_app, Hskipped. cbn [andb forallb may_consume].
      rewrite Hc. reflexivity.
  - destruct (_parse n e1 false preloc) as [[r1 rest1]|] eqn:H1; [|discriminate].
    destruct (_parse n e2 true rest1) as [[r2 rest2]|] eqn:H2; [|discriminate].
    injection Hparse as <- <-.
    destruct (IH1 _ _ _ _ H1) as (c1 & -> & Hc1).
    destruct (IH2 _ _ _ _ H2) as (c2 & -> & Hc2).
    exists (skipped ++ c1 ++ c2). rewrite <- !app_assoc. split; [reflexivity|].
    rewrite !forallb_app, Hskipped. cbn [andb may_consume].
    rewrite (forallb_weaken _ _ c1 (fun c H => orb_true_intro _ _ (or_introl H)) Hc1).
    rewrite (forallb_weaken _ _ c2 (fun c H => orb_true_intro _ _ (or_intror H)) Hc2).
    reflexivity.
  - destruct (_parse n e1 false preloc) as [[r1 rest1]|] eqn:H1.
    + injection Hparse as <- <-. destruct (IH1 _ _ _ _ H1) as (c1 & -> & Hc1).
      exists (skipped ++ c1). rewrite <- app_assoc. split; [reflexivity|].
      rewrite forallb_app, Hskipped. exact Hc1.
    + injection Hparse as <- <-. exists skipped. split; [reflexivity|exact Hskipped].
  - destruct (_parse n e1 false preloc) as [[r1 rest1]|] eqn:H1; [|discriminate].
    injection Hparse as <- <-. destruct (IH1 _ _ _ _ H1) as (c1 & -> & Hc1).
    exists (skipped ++ c1). rewrite <- app_assoc. split; [reflexivity|].
    rewrite forallb_app, Hskipped. exact Hc1.
  - destruct (_parse n e1 callPreParse input) as [[r1 rest1]|] eqn:H1;
      [|discriminate].
    cbn [on_results] in Hparse. injection Hparse as <- <-.
    exact (IH1 _ _ _ _ H1).
  - destruct (_parse n e1 callPreParse input) as [[r1 rest1]|] eqn:H1;
      [|discriminate].
    cbn [on_results] in Hparse. injection Hparse as <- <-.
    exact (IH1 _ _ _ _ H1).
Qed.

Lemma parse_And_inv (n : nat) (e1 e2 : ParserElement) (callPreParse : bool)
    (input rest : str) (r : ParseResults) :
  _parse n (And e1 e2) callPreParse input = Some (r, rest) ->
  exists r1 rest1 r2,
    _parse n e1 false
      (if callPreParse then preParse (whiteChars e1) input else input) =
      Some (r1, rest1) /\
    _parse n e2 true rest1 = Some (r2, rest) /\
    r = add_results r1 r2.
Proof.
  cbn [_parse whiteChars]. intros H.
  destruct (_parse n e1 false _) as [[r1 rest1]|] eqn:H1; [|discriminate].
  destruct (_parse n e2 true rest1) as [[r2 rest2]|] eqn:H2; [|discriminate].
  injection H as <- <-. exists r1, rest1, r2.
  split; [reflexivity|]. split; [exact H2|reflexivity].
Qed.

Lemma parse_LineEnd_inv (n : nat) (callPreParse : bool) (input rest : str)
    (r : ParseResults) :
  _parse n LineEnd callPreParse input = Some (r, rest) -> tokdict r = ∅.
Proof.
  cbn [_parse]. destruct (if callPreParse then _ else _) as [|c rest'].
  - intros [= <- _]. reflexivity.
  - destruct (Ascii.eqb c LF); [|discriminate]. intros [= <- _]. reflexivity.
Qed.

Lemma parse_body_inv (n : nat) (input rest : str) (r : ParseResults) :
  _parse n _PYPARSING_COMPONENTS.body true input = Some (r, rest) ->
  exists skipped text,
    r = named_body text /\
    input = skipped ++ text ++ rest /\
    forallb (char_in DEFAULT_WHITE_CHARS) skipped = true /\
    preParse DEFAULT_WHITE_CHARS input = text ++ rest /\
    (rest = [] \/ exists rest', rest = LF :: rest').
Proof.
  unfold _PYPARSING_COMPONENTS.body. cbn [_parse whiteChars]. intros H.
  destruct (match_at n _ _) as [[text rest']|] eqn:Hmatch; [|discriminate].
  cbn [on_results] in H. injection H as <- <-.
  destruct (lazy_scan_inv n _ _ _ _ Hmatch) as [Hsplit Hlook].
  destruct (preParse_split DEFAULT_WHITE_CHARS input) as (skipped & Heq & Hall).
  exists skipped, text. split; [reflexivity|].
  split; [rewrite Heq at 1; rewrite Hsplit; reflexivity|].
  split; [exact Hall|]. split; [exact Hsplit|].
  rewrite accepts_alt, accepts_Eol, accepts_next_line in Hlook.
  destruct rest' as [|c rest']; [left; reflexivity|]. right.
  apply orb_true_iff in Hlook. destruct Hlook as [Hlook|Hlook].
  - destruct rest'; [|discriminate]. apply Ascii.eqb_eq in Hlook. subst c. eauto.
  - apply andb_true_iff in Hlook. destruct Hlook as [Hc _].
    apply Ascii.eqb_eq in Hc. subst c. eauto.
Qed.

Lemma preParse_idempotent (white input : str) :
  preParse white (preParse white input) = preParse white input.
Proof.
  induction input as [|c input IH]; [reflexivity|].
  cbn [preParse]. destruct (char_in white c) eqn:Hc; [exact IH|].
  cbn [preParse]. rewrite Hc. reflexivity.
Qed.

Lemma date_chars (c : ascii) :
  may_consume
    (And _PYPARSING_COMPONENTS.date (Optional (Suppress (Literal (u ":"))))) c
    = true ->
  date_time_char c = true.
Proof. destruct c as [[] [] [] [] [] [] [] []]; vm_compute; congruence. Qed.

Lemma white_date_time_char (c : ascii) :
  char_in DEFAULT_WHITE_CHARS c = true -> date_time_char c = true.
Proof. unfold date_time_char. intros ->. apply orb_true_r. Qed.

(** C3.  For every line the grammar matches, the reporter of the
    structure reads as the empty string, so that the handler lookup of
    ParseRecord is the lookup of the empty string in the index; and the
    body is the whole text of the line after the date and time: the line
    (with its tabs expanded) is a prefix made of digits, the separators
    - and : and white space, then the body, which does not begin with
    white space, then nothing or the line feed at which the body ends. *)
Theorem reporter_never_parsed (line : str) (structure : ParseResults) :
  parseString _EXIM4_LINE line = Some structure ->
  getattr structure (u "reporter") = PyStr [] /\
  (forall index : gmap str Plugin,
     dict_get index (getattr structure (u "reporter")) = index !! ([] : str)) /\
  exists prefix text rest,
    expandtabs line = prefix ++ text ++ rest /\
    getattr structure (u "body") = PyStr text /\
    forallb date_time_char prefix = true /\
    preParse DEFAULT_WHITE_CHARS (text ++ rest) = text ++ rest /\
    (rest = [] \/ exists rest', rest = LF :: rest').
Proof.
  unfold parseString. intros Hparse.
  destruct (_parse _ _ true (expandtabs line)) as [[structure' after]|] eqn:H;
    [|discriminate].
  cbn in Hparse. injection Hparse as ->.
  assert (Hreporter : getattr structure (u "reporter") = PyStr [])
    by exact (reporter_unset _ _ _ _ _ H).
  split; [exact Hreporter|]. split; [intros index; rewrite Hreporter; reflexivity|].
  unfold _EXIM4_LINE in H.
  apply parse_And_inv in H. destruct H as (r123 & s3 & r4 & H123 & H4 & ->).
  apply parse_And_inv in H123. cbv beta iota in H123.
  destruct H123 as (r12 & s2 & r3 & H12 & H3 & ->).
  destruct (preParse_split
              (whiteChars (_PYPARSING_COMPONENTS.date +
                 Optional (Suppress (Literal (u ":"))) +
                 _PYPARSING_COMPONENTS.body)%pp) (expandtabs line))
    as (skipped0 & Heq0 & Hskipped0).
  destruct (parse_consumed _ _ _ _ _ _ H12) as (c12 & Heq12 & Hc12).
  destruct (parse_body_inv _ _ _ _ H3)
    as (skipped & text & -> & -> & Hskipped & Hpre & Hrest).
  exists (skipped0 ++ c12 ++ skipped), text, s3.
  split; [|split; [|split; [|split]]].
  - rewrite Heq0 at 1. rewrite Heq12. rewrite <- !app_assoc. reflexivity.
  - unfold getattr, add_results. cbn [tokdict].
    rewrite (parse_LineEnd_inv _ _ _ _ _ H4), (left_id_L ∅ (∪)).
    erewrite lookup_union_Some_l; [reflexivity|].
    unfold named_body. cbn [tokdict]. apply lookup_singleton_eq.
  - rewrite !forallb_app.
    rewrite (forallb_weaken _ _ _ white_date_time_char Hskipped0).
    rewrite (forallb_weaken _ _ _ date_chars Hc12).
    rewrite (forallb_weaken _ _ _ white_date_time_char Hskipped).
    reflexivity.
  - rewrite <- Hpre. apply preParse_idempotent.
  - exact Hrest.
Qed.

(** The line of the example scenario: the reporter-like text is part of
    the body. *)
Lemma reporter_never_parsed_witness :
  parseString _EXIM4_LINE example_line = Some (structure_of example_line) /\
  getattr (structure_of example_line) (u "reporter") = PyStr [] /\
  getattr (structure_of example_line) (u "body") =
    PyStr (u "some_reporter: connection refused").
Proof.
  split; [exact example_line_parsed|].
  split; [|vm_compute; reflexivity].
  exact (proj1 (reporter_never_parsed example_line (structure_of example_line)
                  example_line_parsed)).
Defined.

(** ** The index and the active plugins *)

Lemma last_cons_option {A : Type} (x : A) (l : list A) :
  last (x :: l) = match last l with Some y => Some y | None => Some x end.
Proof.
  destruct l as [|y l]; [reflexivity|]. rewrite last_cons_cons.
  destruct (last (y :: l)) eqn:H; [reflexivity|].
  apply last_None in H. discriminate H.
Qed.

Lemma index_of_last (objs : list Plugin) (index : gmap str Plugin) (reporter : str) :
  index_of objs index !! reporter =
    match last (with_reporter reporter objs) with
    | Some p => Some p
    | None => index !! reporter
    end.
Proof.
  revert index. induction objs as [|q objs IH]; intros index; [reflexivity|].
  cbn [index_of fold_left]. fold (index_of objs (<[REPORTER q := q]> index)).
  rewrite IH. unfold with_reporter. cbn [List.filter].
  fold (with_reporter reporter objs).
  destruct (decide (REPORTER q = reporter)) as [Heq|Hne].
  - rewrite bool_decide_eq_true_2 by exact Heq. rewrite last_cons_option.
    destruct (last (with_reporter reporter objs)); [reflexivity|].
    rewrite <- Heq. apply lookup_insert_eq.
  - rewrite bool_decide_eq_false_2 by exact Hne.
    destruct (last (with_reporter reporter objs)); [reflexivity|].
    apply lookup_insert_ne. exact Hne.
Qed.

Lemma EnablePlugins_objects (plugin_includes : option (list str)) (self : Exim4Parser) :
  _plugin_objects_by_reporter (EnablePlugins plugin_includes self) =
    index_of (_plugin_objects (EnablePlugins plugin_includes self)) ∅.
Proof. rewrite EnablePlugins_eq. reflexivity. Qed.

Lemma in_with_reporter (reporter : str) (objs : list Plugin) (p : Plugin) :
  In p (with_reporter reporter objs) <-> In p objs /\ REPORTER p = reporter.
Proof.
  unfold with_reporter. rewrite filter_In. rewrite bool_decide_eq_true. tauto.
Qed.

Lemma index_entry_active (objs : list Plugin) (reporter : str) (p : Plugin) :
  index_of objs ∅ !! reporter = Some p ->
  REPORTER p = reporter /\ In p objs.
Proof.
  rewrite index_of_last. intros Hp.
  destruct (last (with_reporter reporter objs)) as [q|] eqn:Hlast.
  - injection Hp as ->. apply last_Some in Hlast. destruct Hlast as [l' Hl'].
    assert (Hin : In p (with_reporter reporter objs)).
    { rewrite Hl'. apply in_or_app. right. left. reflexivity. }
    apply in_with_reporter in Hin. tauto.
  - rewrite lookup_empty in Hp. discriminate Hp.
Qed.

(** The index after EnablePlugins, read off the active plugins: a
    reporter leads to the last active plugin that declares it.  So the key
    of an entry is the REPORTER of its plugin, the plugin is an active one,
    and every active plugin finds its reporter in the index. *)
Theorem EnablePlugins_index_last
    (plugin_includes : option (list str)) (self enabled : Exim4Parser) :
  enabled = EnablePlugins plugin_includes self ->
  (forall reporter,
     _plugin_objects_by_reporter enabled !! reporter =
       last (with_reporter reporter (_plugin_objects enabled))) /\
  (forall reporter p,
     _plugin_objects_by_reporter enabled !! reporter = Some p ->
     REPORTER p = reporter /\ In p (_plugin_objects enabled)) /\
  (forall p,
     In p (_plugin_objects enabled) ->
     exists q, _plugin_objects_by_reporter enabled !! REPORTER p = Some q /\
               REPORTER q = REPORTER p).
Proof.
  intros Henabled.
  assert (Hlast : forall reporter,
            _plugin_objects_by_reporter enabled !! reporter =
              last (with_reporter reporter (_plugin_objects enabled))).
  { intros reporter. rewrite Henabled, EnablePlugins_objects, index_of_last.
    destruct (last _); [reflexivity|apply lookup_empty]. }
  split; [exact Hlast|]. split.
  - intros reporter p Hp. rewrite Hlast in Hp.
    apply last_Some in Hp. destruct Hp as [l' Hl'].
    assert (Hin : In p (with_reporter reporter (_plugin_objects enabled))).
    { rewrite Hl'. apply in_or_app. right. left. reflexivity. }
    apply in_with_reporter in Hin. tauto.
  - intros p Hin. rewrite Hlast.
    destruct (last (with_reporter (REPORTER p) (_plugin_objects enabled)))
      as [q|] eqn:Hq.
    + exists q. split; [reflexivity|].
      apply last_Some in Hq. destruct Hq as [l' Hl'].
      assert (Hinq : In q (with_reporter (REPORTER p) (_plugin_objects enabled))).
      { rewrite Hl'. apply in_or_app. right. left. reflexivity. }
      apply in_with_reporter in Hinq. tauto.
    + apply last_None in Hq.
      assert (Hinp : In p (with_reporter (REPORTER p) (_plugin_objects enabled))).
      { apply in_with_reporter. split; [exact Hin|reflexivity]. }
      rewrite Hq in Hinp. destruct Hinp.
Qed.

(** Two plugins that declare the same reporter: both are active, the index
    has one entry, the last of the two. *)
Lemma EnablePlugins_index_last_witness :
  length (_plugin_objects (EnablePlugins None shared_reporter_parser)) = 2%nat /\
  size (_plugin_objects_by_reporter (EnablePlugins None shared_reporter_parser))
    = 1%nat /\
  _plugin_objects_by_reporter (EnablePlugins None shared_reporter_parser) !! u "r" =
    last (with_reporter (u "r")
            (_plugin_objects (EnablePlugins None shared_reporter_parser))).
Proof.
  split; [vm_compute; reflexivity|]. split; [vm_compute; reflexivity|].
  exact (proj1 (EnablePlugins_index_last None shared_reporter_parser _ eq_refl)
           (u "r")).
Defined.

(** ** Exceptions of a plugin *)

(** WrongPlugin never comes out of ParseRecord.  Any other exception that
    Process raises comes out as it is, with the mediator as Process left
    it: no generic event is produced for the record. *)
Theorem ParseRecord_exceptions
    (w : World) (key : str) (structure : ParseResults) :
  (ParseRecord key structure w).2 <> Raised WrongPlugin /\
  (forall timestamp plugin_object e,
     key ∈ _SUPPORTED_KEYS ->
     time_parts structure (timezone (mediator w)) = Returned timestamp ->
     dict_get (_plugin_objects_by_reporter (self w))
       (getattr structure (u "reporter")) = Some plugin_object ->
     let r := Process plugin_object (mediator w) timestamp
                (parsed_attributes structure) in
     raised r = Some e -> e <> WrongPlugin ->
     ParseRecord key structure w =
       (mkWorld (self w) (mediator_after r), Raised e)).
Proof.
  split.
  - destruct (decide (key ∈ _SUPPORTED_KEYS)) as [Hkey|Hkey].
    + rewrite (ParseRecord_supported key structure w Hkey).
      destruct (time_parts structure (timezone (mediator w))) as [ts|e] eqn:Ht.
      * cbv zeta. destruct (dict_get _ _); [|discriminate].
        destruct (raised _) as [[]|]; discriminate.
      * unfold time_parts, FromTimeParts in Ht.
        repeat match type of Ht with
               | context [match ?x with _ => _ end] => destruct x
               end; try discriminate; injection Ht as <-; discriminate.
    + rewrite (ParseRecord_unsupported key structure w Hkey). discriminate.
  - intros timestamp plugin_object e Hkey Ht Hfound r Hraised He.
    rewrite (ParseRecord_supported key structure w Hkey), Ht. cbv zeta.
    rewrite Hfound. fold r. rewrite Hraised.
    destruct e; try reflexivity. contradiction He. reflexivity.
Qed.

(** A plugin under the empty reporter that fails on the example line. *)
Lemma ParseRecord_exceptions_witness :
  ParseRecord (u "exim4_line") (structure_of example_line) failing_world =
    (failing_world, Raised (OtherError (u "ValueError"))).
Proof.
  rewrite (proj2 (ParseRecord_exceptions failing_world (u "exim4_line")
                    (structure_of example_line))
             1463048130000000 (failing_plugin []) (OtherError (u "ValueError"))
             example_key_supported example_time_parts eq_refl eq_refl);
    [reflexivity|discriminate].
Defined.

(** ** Parsed lines and plugins *)

Lemma active_known (plugin_includes : option (list str))
    (classes : gmap str Plugin) (p : Plugin) :
  In p (active plugin_includes classes) ->
  exists name, classes !! name = Some p.
Proof.
  unfold active. intros Hin. apply in_map_iff in Hin.
  destruct Hin as [[name q] [Hq Hin]]. simpl in Hq. subst q.
  apply filter_In in Hin. destruct Hin as [Hin _].
  exists name. apply elem_of_map_to_list, list_elem_of_In. exact Hin.
Qed.

Lemma parsed_reporter_empty (line : str) (structure : ParseResults) :
  parseString _EXIM4_LINE line = Some structure ->
  getattr structure (u "reporter") = PyStr [].
Proof.
  unfold parseString. intros H.
  destruct (_parse _ _ true (expandtabs line)) as [[structure' after]|] eqn:Hp;
    [|discriminate].
  cbn in H. injection H as ->. exact (reporter_unset _ _ _ _ _ Hp).
Qed.

(** A line the grammar matched never reaches a plugin that declares a
    reporter: when no known plugin has the empty REPORTER, ParseRecord on
    the structure of a matched line, with any set of plugins enabled,
    produces the generic event with the body of the line and calls no
    plugin.  When all plugins are enabled and one of them has the empty
    REPORTER, the lookup finds a plugin with the empty REPORTER, for every
    matched line. *)
Theorem parsed_line_dispatch
    (line : str) (structure : ParseResults) (parser : Exim4Parser) :
  parseString _EXIM4_LINE line = Some structure ->
  (forall plugin_includes m timestamp,
     (forall name p, _plugin_classes parser !! name = Some p -> REPORTER p <> []) ->
     time_parts structure (timezone m) = Returned timestamp ->
     let w := mkWorld (EnablePlugins plugin_includes parser) m in
     ParseRecord (u "exim4_line") structure w =
       (generic_event_produced w timestamp (parsed_attributes structure),
        Returned tt)) /\
  (forall name p,
     _plugin_classes parser !! name = Some p -> REPORTER p = [] ->
     exists q,
       dict_get (_plugin_objects_by_reporter (EnablePlugins None parser))
         (getattr structure (u "reporter")) = Some q /\
       REPORTER q = []).
Proof.
  intros Hparse.
  pose proof (parsed_reporter_empty line structure Hparse) as Hreporter.
  split.
  - intros plugin_includes m timestamp Hnone Htime w.
    rewrite (ParseRecord_supported _ structure w example_key_supported).
    subst w. cbn [mediator self]. rewrite Htime. cbv zeta. rewrite Hreporter.
    cbn [dict_get].
    destruct (_plugin_objects_by_reporter (EnablePlugins plugin_includes parser)
                !! ([] : str)) as [p|] eqn:Hp; [|reflexivity].
    exfalso. rewrite EnablePlugins_eq in Hp. cbn [_plugin_objects_by_reporter] in Hp.
    destruct (index_entry_active _ _ _ Hp) as [Hrep Hin].
    destruct (active_known _ _ _ Hin) as [name Hname].
    exact (Hnone name p Hname Hrep).
  - intros name p Hknown Hrep. rewrite Hreporter. cbn [dict_get].
    rewrite EnablePlugins_eq. cbn [_plugin_objects_by_reporter].
    destruct (proj2 (index_of_lookup (active None (_plugin_classes parser)) ∅ []))
      as [q Hq].
    + right. exists p. split; [|exact Hrep].
      unfold active, wanted. rewrite filter_all.
      apply in_map_iff. exists (name, p). split; [reflexivity|].
      apply list_elem_of_In, elem_of_map_to_list. exact Hknown.
    + exists q. split; [exact Hq|].
      exact (proj1 (index_entry_active _ _ _ Hq)).
Qed.

(** The example line with a plugin for some_reporter known and enabled:
    the generic event. *)
Lemma parsed_line_dispatch_witness :
  parseString _EXIM4_LINE example_line = Some (structure_of example_line) /\
  ParseRecord (u "exim4_line") (structure_of example_line)
    (mkWorld (EnablePlugins (Some [u "some"]) some_reporter_parser) fresh_mediator) =
    (generic_event_produced
       (mkWorld (EnablePlugins (Some [u "some"]) some_reporter_parser) fresh_mediator)
       1463048130000000 (parsed_attributes (structure_of example_line)),
     Returned tt).
Proof.
  split; [exact example_line_parsed|].
  apply (proj1 (parsed_line_dispatch example_line (structure_of example_line)
                  some_reporter_parser example_line_parsed)).
  - intros name p Hp. unfold some_reporter_parser in Hp.
    cbn [_plugin_classes new_parser __init__] in Hp.
    apply lookup_singleton_Some in Hp. destruct Hp as [_ <-]. discriminate.
  - exact example_time_parts.
Defined.

(** [__init__] empties the index and leaves the plugins that the base
    class has made active where they are.  Until EnablePlugins is called
    ParseRecord therefore produces the generic event for every record
    whose date and time normalise, whatever reporter the record carries
    and whatever plugins are active. *)
Theorem fresh_parser_generic
    (base : Exim4Parser) (m : ParserMediator) (structure : ParseResults)
    (timestamp : Z) :
  time_parts structure (timezone m) = Returned timestamp ->
  ParseRecord (u "exim4_line") structure (mkWorld (__init__ base) m) =
    (generic_event_produced (mkWorld (__init__ base) m) timestamp
       (parsed_attributes structure),
     Returned tt).
Proof.
  intros Htime. set (w := mkWorld (__init__ base) m).
  rewrite (ParseRecord_supported _ structure w example_key_supported).
  subst w. cbn [mediator self]. rewrite Htime. cbv zeta.
  assert (Hnone : dict_get (_plugin_objects_by_reporter (__init__ base))
                    (getattr structure (u "reporter")) = None).
  { destruct (getattr structure (u "reporter")); [reflexivity|].
    cbn [dict_get __init__ _plugin_objects_by_reporter]. apply lookup_empty. }
  rewrite Hnone. reflexivity.
Qed.

(** The parser object constructed on top of a base class that has
    enabled a plugin for the empty reporter. *)
Lemma fresh_parser_generic_witness :
  length (_plugin_objects (__init__ empty_reporter_base)) = 1%nat /\
  ParseRecord (u "exim4_line") (structure_of example_line)
    (mkWorld (__init__ empty_reporter_base) fresh_mediator) =
    (generic_event_produced (mkWorld (__init__ empty_reporter_base) fresh_mediator)
       1463048130000000 (parsed_attributes (structure_of example_line)),
     Returned tt).
Proof.
  split; [vm_compute; reflexivity|].
  exact (fresh_parser_generic empty_reporter_base fresh_mediator
           (structure_of example_line) 1463048130000000 example_time_parts).
Defined.

(** ** The verifier and the start of the line *)

Lemma has_layout_take (classes : list (ascii -> bool)) (line : str) :
  has_layout classes line = has_layout classes (take (length classes) line).
Proof.
  revert line. induction classes as [|p classes IH]; intros line; [reflexivity|].
  destruct line as [|c line]; [reflexivity|].
  cbn [length take has_layout]. rewrite <- IH. reflexivity.
Qed.

Lemma has_layout_short (classes : list (ascii -> bool)) (line : str) :
  (length line < length classes)%nat -> has_layout classes line = false.
Proof.
  revert line. induction classes as [|p classes IH]; intros line H.
  - simpl in H. lia.
  - destruct line as [|c line]; [reflexivity|].
    cbn [has_layout]. rewrite IH by (simpl in H; lia). apply andb_false_r.
Qed.

(** VerifyStructure reads the first 20 characters of the line and nothing
    else: the answer for a line is the answer for its first 20
    characters, whatever follows them, and a line of fewer than 20
    characters, the empty line included, is rejected. *)
Theorem VerifyStructure_first_20 (unused_mediator : ParserMediator) (line : str) :
  VerifyStructure unused_mediator line =
    VerifyStructure unused_mediator (take 20 line) /\
  (forall other,
     take 20 other = take 20 line ->
     VerifyStructure unused_mediator other = VerifyStructure unused_mediator line) /\
  ((length line < 20)%nat -> VerifyStructure unused_mediator line = false).
Proof.
  assert (Htake : forall l, VerifyStructure unused_mediator l =
                    VerifyStructure unused_mediator (take 20 l)).
  { intros l. rewrite !VerifyStructure_has_layout.
    apply (has_layout_take probe_layout). }
  split; [apply Htake|]. split.
  - intros other Hother. rewrite (Htake other), (Htake line), Hother. reflexivity.
  - intros Hshort. rewrite VerifyStructure_has_layout.
    apply has_layout_short. exact Hshort.
Qed.

Lemma VerifyStructure_first_20_witness :
  VerifyStructure fresh_mediator (u "2016-05-12 10:15:30 anything else") =
    VerifyStructure fresh_mediator example_line /\
  VerifyStructure fresh_mediator (u "2016-05-12 10:15:30") = false.
Proof.
  split.
  - apply (proj1 (proj2 (VerifyStructure_first_20 fresh_mediator example_line))).
    reflexivity.
  - apply (proj2 (proj2 (VerifyStructure_first_20 fresh_mediator
                           (u "2016-05-12 10:15:30")))).
    vm_compute. lia.
Defined.

(** ** What the grammar accepts *)

Lemma lazy_scan_total (n : nat) (r : regex) (input : str) :
  accepts n r [] = true ->
  exists text rest,
    match_at n (Star false dot_all ⋅ Lookahead r) input = Some (text, rest).
Proof.
  intros Hend. unfold match_at.
  change (matches n (Star false dot_all ⋅ Lookahead r) input)
    with (flat_map (matches n (Lookahead r)) (matches n (Star false dot_all) input)).
  rewrite lazy_dot_all_suffixes.
  assert (H : flat_map (matches n (Lookahead r)) (suffixes input) <> []).
  { induction input as [|c input IH]; cbn [suffixes flat_map];
      rewrite matches_lookahead.
    - rewrite Hend. discriminate.
    - destruct (accepts n r (c :: input)); [discriminate|exact IH]. }
  destruct (flat_map _ _) as [|rest others]; [contradiction|]. eauto.
Qed.

(** The body element matches whatever it is given. *)
Lemma parse_body_total (n : nat) (callPreParse : bool) (input : str) :
  exists text rest,
    _parse n _PYPARSING_COMPONENTS.body callPreParse input =
      Some (named_body text, rest) /\
    (rest = [] \/ exists rest', rest = LF :: rest').
Proof.
  unfold _PYPARSING_COMPONENTS.body. cbn [_parse whiteChars].
  set (preloc := if callPreParse then _ else _).
  destruct (lazy_scan_total n (Alt Eol _PYPARSING_COMPONENTS.next_line) preloc
              eq_refl) as (text & rest & Hmatch).
  fold _PYPARSING_COMPONENTS.body_regex in Hmatch.
  exists text, rest. rewrite Hmatch. split; [reflexivity|].
  destruct (lazy_scan_inv n _ _ _ _ Hmatch) as [_ Hlook].
  rewrite accepts_alt, accepts_Eol, accepts_next_line in Hlook.
  destruct rest as [|c rest]; [left; reflexivity|]. right.
  apply orb_true_iff in Hlook. destruct Hlook as [Hlook|Hlook].
  - destruct rest; [|discriminate]. apply Ascii.eqb_eq in Hlook. subst c. eauto.
  - apply andb_true_iff in Hlook. destruct Hlook as [Hc _].
    apply Ascii.eqb_eq in Hc. subst c. eauto.
Qed.

Lemma parse_LineEnd_after_body (n : nat) (rest : str) :
  rest = [] \/ (exists rest', rest = LF :: rest') ->
  exists r after,
    _parse n LineEnd true rest = Some (r, after) /\ tokdict r = ∅ /\
    after = drop 1 rest.
Proof.
  intros [->|[rest' ->]].
  - exists no_results, []. repeat split.
  - exists (single (PyStr [LF])), rest'. repeat split.
Qed.

Lemma parse_optional_total (n : nat) (e : ParserElement) (callPreParse : bool)
    (input : str) :
  exists r rest, _parse n (Optional e) callPreParse input = Some (r, rest).
Proof.
  cbn [_parse]. destruct (_parse n e false _) as [[r rest]|]; eauto.
Qed.

(** After the date and time the rest of the grammar cannot fail. *)
Lemma parse_line_after_date (n : nat) (callPreParse : bool) (input : str)
    (rd : ParseResults) (rest1 : str) :
  _parse n _PYPARSING_COMPONENTS.date callPreParse input = Some (rd, rest1) ->
  exists ropt rest2 text rest3 rend after,
    _parse n (Optional (Suppress (Literal (u ":")))) true rest1 =
      Some (ropt, rest2) /\
    _parse n _PYPARSING_COMPONENTS.body true rest2 =
      Some (named_body text, rest3) /\
    _parse n LineEnd true rest3 = Some (rend, after) /\
    tokdict rend = ∅ /\
    _parse n _EXIM4_LINE callPreParse input =
      Some (add_results (add_results (add_results rd ropt) (named_body text)) rend,
            after).
Proof.
  intros Hdate.
  destruct (parse_optional_total n (Suppress (Literal (u ":"))) true rest1)
    as (ropt & rest2 & Hopt).
  destruct (parse_body_total n true rest2) as (text & rest3 & Hbody & Hrest3).
  destruct (parse_LineEnd_after_body n rest3 Hrest3) as (rend & after & Hend & Hdict & _).
  exists ropt, rest2, text, rest3, rend, after.
  split; [exact Hopt|]. split; [exact Hbody|]. split; [exact Hend|].
  split; [exact Hdict|].
  unfold _EXIM4_LINE.
  eapply parse_And; [cbv beta iota|exact Hend].
  eapply parse_And; [cbv beta iota|exact Hbody].
  eapply parse_And; [cbv beta iota|exact Hopt].
  rewrite <- Hdate. destruct callPreParse; reflexivity.
Qed.

Lemma parse_line_date (n : nat) (callPreParse : bool) (input : str)
    (structure : ParseResults) (after : str) :
  _parse n _EXIM4_LINE callPreParse input = Some (structure, after) ->
  exists rd rest1,
    _parse n _PYPARSING_COMPONENTS.date callPreParse input = Some (rd, rest1).
Proof.
  unfold _EXIM4_LINE. intros H.
  apply parse_And_inv in H. destruct H as (r123 & s3 & r4 & H123 & _ & _).
  apply parse_And_inv in H123. destruct H123 as (r12 & s2 & r3 & H12 & _ & _).
  apply parse_And_inv in H12. destruct H12 as (rd & s1 & ropt & Hd & _ & _).
  exists rd, s1. rewrite <- Hd. destruct callPreParse; reflexivity.
Qed.

(** A line matches the grammar exactly when its date and time do: the
    optional colon, the body and the end of line accept every text that
    follows them. *)
Theorem line_matches_iff_date (line : str) :
  is_Some (parseString _EXIM4_LINE line) <->
  is_Some (parseString _PYPARSING_COMPONENTS.date line).
Proof.
  unfold parseString. rewrite !fmap_is_Some. split.
  - intros [[structure after] H].
    destruct (parse_line_date _ _ _ _ _ H) as (rd & rest1 & Hd).
    rewrite Hd. eexists; reflexivity.
  - intros [[rd rest1] H].
    destruct (parse_line_after_date _ _ _ _ _ H)
      as (ropt & rest2 & text & rest3 & rend & after & _ & _ & _ & _ & Hline).
    rewrite Hline. eexists; reflexivity.
Qed.

(** ** The captured body *)

Lemma first_accepting_suffix (n : nat) (r : regex) (input rest : str)
    (others : list str) :
  flat_map (matches n (Lookahead r)) (suffixes input) = rest :: others ->
  exists text,
    input = text ++ rest /\
    forall i, (i < length text)%nat -> accepts n r (drop i input) = false.
Proof.
  induction input as [|c input IH]; cbn [suffixes flat_map];
    rewrite matches_lookahead.
  - destruct (accepts n r []); simpl; [|discriminate].
    intros [= <- _]. exists []. split; [reflexivity|]. simpl. lia.
  - destruct (accepts n r (c :: input)) eqn:H; simpl.
    + intros [= <- _]. exists []. split; [reflexivity|]. simpl. lia.
    + intros Hrest. destruct (IH Hrest) as (text & -> & Hbefore).
      exists (c :: text). split; [reflexivity|].
      intros [|i] Hi; [exact H|]. apply Hbefore. simpl in Hi. lia.
Qed.

Lemma no_boundary_no_dated_line (n : nat) (text rest : str) :
  (forall i, (i < length text)%nat ->
     accepts n (Alt Eol _PYPARSING_COMPONENTS.next_line) (drop i (text ++ rest))
       = false) ->
  dated_line_inside text rest = false.
Proof.
  induction text as [|c text IH]; intros H; [reflexivity|].
  cbn [dated_line_inside]. apply orb_false_iff. split.
  - pose proof (H 0%nat ltac:(simpl; lia)) as H0. cbn [drop app] in H0.
    rewrite accepts_alt, accepts_next_line, accepts_date_prefix in H0.
    apply orb_false_iff in H0. destruct H0 as [_ H0].
    rewrite Ascii.eqb_sym. exact H0.
  - apply IH. intros i Hi. apply (H (S i)). simpl. lia.
Qed.

Lemma body_regex_inv (n : nat) (input text rest : str) :
  match_at n _PYPARSING_COMPONENTS.body_regex input = Some (text, rest) ->
  input = text ++ rest /\
  dated_line_inside text rest = false /\
  follows_body text rest.
Proof.
  intros Hmatch.
  destruct (lazy_scan_inv n _ _ _ _ Hmatch) as [Hsplit Hlook].
  assert (Hbefore : forall i, (i < length text)%nat ->
            accepts n (Alt Eol _PYPARSING_COMPONENTS.next_line)
              (drop i (text ++ rest)) = false).
  { unfold match_at, _PYPARSING_COMPONENTS.body_regex in Hmatch.
    change (matches n (Star false dot_all ⋅
              Lookahead (Alt Eol _PYPARSING_COMPONENTS.next_line)) input)
      with (flat_map (matches n (Lookahead (Alt Eol _PYPARSING_COMPONENTS.next_line)))
              (matches n (Star false dot_all) input)) in Hmatch.
    rewrite lazy_dot_all_suffixes in Hmatch.
    destruct (flat_map _ _) as [|rest' others] eqn:Hflat; [discriminate|].
    injection Hmatch as Htext ->.
    destruct (first_accepting_suffix n _ _ _ _ Hflat) as (text' & Heq & Hb).
    assert (text' = text) as ->.
    { rewrite Hsplit in Heq. apply app_inv_tail in Heq. congruence. }
    rewrite <- Hsplit. exact Hb. }
  split; [exact Hsplit|]. split; [exact (no_boundary_no_dated_line n _ _ Hbefore)|].
  rewrite accepts_alt, accepts_Eol, accepts_next_line in Hlook.
  destruct rest as [|c rest].
  - left. split; [reflexivity|]. intros Hlast.
    apply last_Some in Hlast. destruct Hlast as [text' ->].
    pose proof (Hbefore (length text')) as H.
    rewrite length_app in H. simpl in H. specialize (H ltac:(lia)).
    rewrite app_nil_r, drop_app_length in H.
    rewrite accepts_alt, accepts_Eol in H. discriminate H.
  - right. apply orb_true_iff in Hlook. destruct Hlook as [Hlook|Hlook].
    + destruct rest; [|discriminate]. apply Ascii.eqb_eq in Hlook. subst c.
      left. reflexivity.
    + apply andb_true_iff in Hlook. destruct Hlook as [Hc Hdated].
      apply Ascii.eqb_eq in Hc. subst c. rewrite accepts_date_prefix in Hdated.
      right. exists rest. split; [reflexivity|exact Hdated].
Qed.

(** What the body element captures, in full: applied where the body
    starts, it returns [text] and leaves [rest] exactly when the input is
    [text] followed by [rest], no line feed inside [text] is followed by
    the date prefix, and [rest] is the end of the input (with [text] not
    ending in a line feed), the line feed that ends the input, or a line
    feed and a dated line.  A captured body never holds the start of a dated
    line. *)
Theorem body_capture_exact (n : nat) (input text rest : str) :
  _parse n _PYPARSING_COMPONENTS.body false input = Some (named_body text, rest)
  <->
  input = text ++ rest /\
  dated_line_inside text rest = false /\
  follows_body text rest.
Proof.
  split.
  - unfold _PYPARSING_COMPONENTS.body. cbn [_parse]. intros H.
    destruct (match_at n _PYPARSING_COMPONENTS.body_regex input)
      as [[text' rest']|] eqn:Hmatch; [|discriminate].
    cbn [on_results] in H. injection H as Htok _ <-. subst text'.
    exact (body_regex_inv n _ _ _ Hmatch).
  - intros (-> & Hinside & Hrest).
    apply parse_body_regex. exact (body_regex_stops n text rest Hinside Hrest).
Qed.

(** The body of two lines in front of a dated line, read both ways. *)
Lemma body_capture_exact_witness :
  dated_line_inside multi_line_body (LF :: dated_next_line) = false /\
  follows_body multi_line_body (LF :: dated_next_line) /\
  _parse 0 _PYPARSING_COMPONENTS.body false
    (multi_line_body ++ LF :: dated_next_line) =
    Some (named_body multi_line_body, LF :: dated_next_line).
Proof.
  assert (H1 : dated_line_inside multi_line_body (LF :: dated_next_line) = false)
    by (vm_compute; reflexivity).
  assert (H2 : follows_body multi_line_body (LF :: dated_next_line)).
  { right. right. exists dated_next_line. split; [reflexivity|].
    vm_compute. reflexivity. }
  split; [exact H1|]. split; [exact H2|].
  apply (proj2 (body_capture_exact 0 _ multi_line_body (LF :: dated_next_line))).
  split; [reflexivity|]. split; [exact H1|exact H2].
Defined.

(** ** The fields of a matched line *)

Lemma digit_value_range (c : ascii) :
  is_digit c = true -> 0 <= digit_value c <= 9.
Proof.
  destruct c as [[] [] [] [] [] [] [] []]; intros H;
    try discriminate H; vm_compute; split; discriminate.
Qed.

Lemma int_of_digits_bound (digits : str) :
  forallb is_digit digits = true ->
  0 <= int_of_digits digits < 10 ^ Z.of_nat (length digits).
Proof.
  induction digits as [|c digits IH] using rev_ind; intros H.
  - vm_compute. split; [discriminate|reflexivity].
  - rewrite forallb_app in H. apply andb_true_iff in H. destruct H as [Hd Hc].
    simpl in Hc. rewrite andb_true_r in Hc.
    pose proof (digit_value_range c Hc). specialize (IH Hd).
    rewrite int_of_digits_snoc, length_app. simpl length.
    rewrite Nat2Z.inj_add, Z.pow_add_r by lia.
    change (10 ^ Z.of_nat 1) with 10. lia.
Qed.

Lemma take_chars_length (k : nat) (chars input tok rest : str) :
  take_chars k chars input = (tok, rest) -> (length tok <= k)%nat.
Proof.
  revert input tok rest. induction k as [|k IH]; intros input tok rest H.
  - cbn in H. injection H as <- <-. simpl. lia.
  - destruct input as [|c input]; cbn [take_chars] in H.
    + injection H as <- <-. simpl. lia.
    + destruct (char_in chars c).
      * destruct (take_chars k chars input) as [tok' rest'] eqn:Htake.
        injection H as <- <-. specialize (IH _ _ _ Htake). simpl. lia.
      * injection H as <- <-. simpl. lia.
Qed.

Lemma parse_field_inv (n : nat) (name : str) (width : nat)
    (callPreParse : bool) (input rest : str) (r : ParseResults) :
  (0 < width)%nat ->
  _parse n (setResultsName (setParseAction (Word nums width) PyParseIntCast) name)
    callPreParse input = Some (r, rest) ->
  exists v, r = named_field name v /\ 0 <= v < 10 ^ Z.of_nat width.
Proof.
  intros Hwidth. cbn [_parse whiteChars]. set (preloc := if callPreParse then _ else _).
  destruct (take_chars width nums preloc) as [tok rest'] eqn:Htake.
  destruct (length tok <? width)%nat eqn:Hlen; [discriminate|].
  cbn [on_results]. intros [= <- <-].
  apply Nat.ltb_ge in Hlen. pose proof (take_chars_length _ _ _ _ _ Htake) as Hle.
  destruct (take_chars_split _ _ _ _ _ Htake) as [_ Hdigits].
  assert (Hd : forallb is_digit tok = true).
  { apply (forallb_weaken _ _ _ (fun c H => eq_trans (eq_sym (nums_is_digit c)) H)
             Hdigits). }
  exists (int_of_digits tok). split.
  - unfold map_results, single, name_results, named_field.
    cbn [toklist tokdict map]. rewrite fmap_empty. unfold PyParseIntCast.
    rewrite Hd. replace (length tok =? 0)%nat with false
      by (symmetry; apply Nat.eqb_neq; lia).
    reflexivity.
  - replace width with (length tok) by lia. exact (int_of_digits_bound tok Hd).
Qed.

Lemma parse_Suppress_inv (n : nat) (e : ParserElement) (callPreParse : bool)
    (input rest : str) (r : ParseResults) :
  _parse n (Suppress e) callPreParse input = Some (r, rest) -> r = no_results.
Proof.
  cbn [_parse]. destruct (_parse n e false _) as [[r' rest']|]; [|discriminate].
  intros [= <- _]. reflexivity.
Qed.

Lemma parse_Optional_Suppress_inv (n : nat) (e : ParserElement)
    (callPreParse : bool) (input rest : str) (r : ParseResults) :
  _parse n (Optional (Suppress e)) callPreParse input = Some (r, rest) ->
  r = no_results.
Proof.
  cbn [_parse]. destruct (_parse n e false _) as [[r' rest']|].
  - intros [= <- _]. reflexivity.
  - intros [= <- _]. reflexivity.
Qed.

Lemma parse_date_inv (n : nat) (callPreParse : bool) (input rest : str)
    (rd : ParseResults) :
  _parse n _PYPARSING_COMPONENTS.date callPreParse input = Some (rd, rest) ->
  exists year month day hour minute second,
    rd = date_results year month day hour minute second /\
    date_fields_fit year month day hour minute second.
Proof.
  unfold _PYPARSING_COMPONENTS.date, _PYPARSING_COMPONENTS.year,
    _PYPARSING_COMPONENTS.month, _PYPARSING_COMPONENTS.day,
    _PYPARSING_COMPONENTS.hour, _PYPARSING_COMPONENTS.minute,
    _PYPARSING_COMPONENTS.second, PyparsingConstants.YEAR,
    PyparsingConstants.TWO_DIGITS.
  intros H.
  apply parse_And_inv in H. destruct H as (r9 & s9 & rs & H & Hs & ->).
  apply parse_And_inv in H. destruct H as (r8 & s8 & rc2 & H & Hc2 & ->).
  apply parse_And_inv in H. destruct H as (r7 & s7 & rmi & H & Hmi & ->).
  apply parse_And_inv in H. destruct H as (r6 & s6 & rc1 & H & Hc1 & ->).
  apply parse_And_inv in H. destruct H as (r5 & s5 & rh & H & Hh & ->).
  apply parse_And_inv in H. destruct H as (r4 & s4 & rdd & H & Hdd & ->).
  apply parse_And_inv in H. destruct H as (r3 & s3 & rh2 & H & Hh2 & ->).
  apply parse_And_inv in H. destruct H as (r2 & s2 & rmo & H & Hmo & ->).
  apply parse_And_inv in H. destruct H as (ry & s1 & rh1 & Hy & Hh1 & ->).
  apply parse_Suppress_inv in Hc2, Hc1, Hh2, Hh1. subst rc2 rc1 rh2 rh1.
  apply parse_field_inv in Hy, Hmo, Hdd, Hh, Hmi, Hs; try lia.
  destruct Hy as (year & -> & Hyear). destruct Hmo as (month & -> & Hmonth).
  destruct Hdd as (day & -> & Hday). destruct Hh as (hour & -> & Hhour).
  destruct Hmi as (minute & -> & Hminute). destruct Hs as (second & -> & Hsecond).
  exists year, month, day, hour, minute, second. split; [reflexivity|].
  change (10 ^ Z.of_nat 4) with 10000 in Hyear.
  change (10 ^ Z.of_nat 2) with 100 in Hmonth, Hday, Hhour, Hminute, Hsecond.
  unfold date_fields_fit. lia.
Qed.

(** Every line the grammar matches has all seven fields: year, month,
    day, hour, minute and second are integers, the year from 0 to 9999 and
    the others from 0 to 99, and the body is text. *)
Theorem parsed_fields_in_range (line : str) (structure : ParseResults) :
  parseString _EXIM4_LINE line = Some structure ->
  exists year month day hour minute second body,
    has_fields structure year month day hour minute second body /\
    date_fields_fit year month day hour minute second.
Proof.
  unfold parseString. intros Hparse.
  destruct (_parse _ _ true (expandtabs line)) as [[structure' after]|] eqn:H;
    [|discriminate].
  cbn in Hparse. injection Hparse as ->.
  destruct (parse_line_date _ _ _ _ _ H) as (rd & rest1 & Hd).
  destruct (parse_line_after_date _ _ _ _ _ Hd)
    as (ropt & rest2 & text & rest3 & rend & after' & Hopt & _ & _ & Hdict & Hline).
  rewrite H in Hline. injection Hline as -> _.
  apply parse_Optional_Suppress_inv in Hopt. subst ropt.
  destruct (parse_date_inv _ _ _ _ _ Hd)
    as (year & month & day & hour & minute & second & -> & Hfit).
  exists year, month, day, hour, minute, second, text. split; [|exact Hfit].
  unfold has_fields, getattr, add_results. cbn [tokdict].
  rewrite Hdict, (left_id_L ∅ (∪)).
  repeat split; reflexivity.
Qed.

(** The line with fields out of calendar range: they are within the
    widths. *)
Lemma parsed_fields_in_range_witness :
  exists year month day hour minute second body,
    has_fields (structure_of out_of_range_line)
      year month day hour minute second body /\
    date_fields_fit year month day hour minute second.
Proof.
  exact (parsed_fields_in_range out_of_range_line
           (structure_of out_of_range_line) out_of_range_line_parsed).
Defined.

(** ** The verifier and the grammar *)

Lemma expandtabs_plain (text rest : str) (col : nat) :
  forallb plain_char text = true ->
  expandtabs_from col (text ++ rest) =
    text ++ expandtabs_from (col + length text) rest.
Proof.
  revert col. induction text as [|c text IH]; intros col H.
  - simpl. rewrite Nat.add_0_r. reflexivity.
  - simpl in H. apply andb_true_iff in H. destruct H as [Hc Htext].
    unfold plain_char in Hc. apply andb_true_iff in Hc. destruct Hc as [Htab Hnl].
    apply negb_true_iff in Htab, Hnl.
    cbn [app expandtabs_from length]. rewrite Htab, Hnl, (IH _ Htext).
    f_equal. f_equal. f_equal. lia.
Qed.

Lemma digit_plain (c : ascii) : is_digit c = true -> plain_char c = true.
Proof. destruct c as [[] [] [] [] [] [] [] []]; vm_compute; congruence. Qed.

Lemma space_cases (c : ascii) :
  is_space c = true ->
  (char_in DEFAULT_WHITE_CHARS c = true /\
   (c = SPACE \/ c = TAB \/ c = LF \/ c = CR)) \/
  (char_in DEFAULT_WHITE_CHARS c = false /\ plain_char c = true /\
   is_digit c = false).
Proof.
  destruct c as [[] [] [] [] [] [] [] []]; vm_compute; intros H;
    try discriminate H; auto 10.
Qed.

(** What [expandtabs] makes of one white space character of the grammar:
    white space again. *)
Lemma expandtabs_white (c : ascii) (rest : str) (col : nat) :
  c = SPACE \/ c = TAB \/ c = LF \/ c = CR ->
  exists white col',
    expandtabs_from col (c :: rest) = white ++ expandtabs_from col' rest /\
    forallb (char_in DEFAULT_WHITE_CHARS) white = true.
Proof.
  intros [-> | [-> | [-> | ->]]].
  - exists [SPACE], (col + 1)%nat. split; reflexivity.
  - exists (repeat SPACE (8 - col mod 8)), (col + (8 - col mod 8))%nat.
    split; [reflexivity|].
    apply forallb_forall. intros x Hx. apply repeat_spec in Hx. subst x.
    reflexivity.
  - exists [LF], 0%nat. split; reflexivity.
  - exists [CR], 0%nat. split; reflexivity.
Qed.

Lemma digit_char_value (c : ascii) :
  is_digit c = true -> digit_char (digit_value c) = c.
Proof. destruct c as [[] [] [] [] [] [] [] []]; vm_compute; congruence. Qed.

Lemma zero_padded_int_of_digits (digits : str) :
  forallb is_digit digits = true ->
  zero_padded (length digits) (int_of_digits digits) = digits.
Proof.
  induction digits as [|c digits IH] using rev_ind; intros H; [reflexivity|].
  rewrite forallb_app in H. apply andb_true_iff in H. destruct H as [Hd Hc].
  simpl in Hc. rewrite andb_true_r in Hc.
  pose proof (digit_value_range c Hc) as Hrange.
  rewrite length_app, Nat.add_1_r, int_of_digits_snoc. cbn [zero_padded].
  replace ((10 * int_of_digits digits + digit_value c) / 10)
    with (int_of_digits digits)
    by (apply (Z.div_unique _ 10 _ (digit_value c)); lia).
  replace ((10 * int_of_digits digits + digit_value c) mod 10)
    with (digit_value c)
    by (apply (Z.mod_unique _ 10 (int_of_digits digits)); lia).
  rewrite (IH Hd). f_equal. f_equal. exact (digit_char_value c Hc).
Qed.

Lemma parse_field_text (n : nat) (name : str) (width : nat) (digits : str)
    (callPreParse : bool) (rest : str) :
  forallb is_digit digits = true -> length digits = width -> (0 < width)%nat ->
  _parse n (setResultsName (setParseAction (Word nums width) PyParseIntCast) name)
    callPreParse (digits ++ rest) =
    Some (named_field name (int_of_digits digits), rest).
Proof.
  intros Hd <- Hwidth.
  rewrite <- (zero_padded_int_of_digits digits Hd) at 2.
  apply parse_field; [exact Hwidth|].
  apply int_of_digits_bound. exact Hd.
Qed.

Lemma preParse_white (white skipped input : str) :
  forallb (char_in white) skipped = true ->
  preParse white (skipped ++ input) = preParse white input.
Proof.
  induction skipped as [|c skipped IH]; intros H; [reflexivity|].
  simpl in H. apply andb_true_iff in H. destruct H as [Hc Hs].
  cbn [app preParse]. rewrite Hc. exact (IH Hs).
Qed.

Lemma parse_field_after_white (n : nat) (name : str) (width : nat)
    (white input : str) :
  forallb (char_in DEFAULT_WHITE_CHARS) white = true ->
  _parse n (setResultsName (setParseAction (Word nums width) PyParseIntCast) name)
    true (white ++ input) =
  _parse n (setResultsName (setParseAction (Word nums width) PyParseIntCast) name)
    true input.
Proof.
  intros H. cbn [_parse whiteChars]. rewrite (preParse_white _ _ _ H).
  reflexivity.
Qed.

Lemma parse_date_to_day (n : nat) (year month day rest : str) :
  forallb is_digit year = true -> length year = 4%nat ->
  forallb is_digit month = true -> length month = 2%nat ->
  forallb is_digit day = true -> length day = 2%nat ->
  _parse n date_to_day false
    (preParse (whiteChars date_to_day)
       (year ++ "-"%char :: month ++ "-"%char :: day ++ rest)) =
    Some (day_results (int_of_digits year) (int_of_digits month)
            (int_of_digits day), rest).
Proof.
  intros Hy Hly Hmo Hlmo Hd Hld.
  unfold date_to_day, _PYPARSING_COMPONENTS.year, _PYPARSING_COMPONENTS.month,
    _PYPARSING_COMPONENTS.day, PyparsingConstants.YEAR,
    PyparsingConstants.TWO_DIGITS.
  cbn [whiteChars]. rewrite (preParse_digits year _ Hy)
    by (intros ->; discriminate Hly).
  unfold day_results.
  repeat (eapply parse_And; [cbv beta iota|]);
    [ apply parse_field_text; [exact Hy|exact Hly|lia]
    | apply (parse_separator n "-"); reflexivity
    | apply parse_field_text; [exact Hmo|exact Hlmo|lia]
    | apply (parse_separator n "-"); reflexivity
    | apply parse_field_text; [exact Hd|exact Hld|lia] ].
Qed.

Lemma date_from_day :
  _PYPARSING_COMPONENTS.date =
    (date_to_day +
     _PYPARSING_COMPONENTS.hour + Suppress (Literal (u ":")) +
     _PYPARSING_COMPONENTS.minute + Suppress (Literal (u ":")) +
     _PYPARSING_COMPONENTS.second)%pp.
Proof. reflexivity. Qed.

(** The date and time with any white space of the grammar, or none,
    between the day and the hour. *)
Lemma parse_date_text (n : nat) (year month day white hour minute second rest : str) :
  forallb is_digit year = true -> length year = 4%nat ->
  forallb is_digit month = true -> length month = 2%nat ->
  forallb is_digit day = true -> length day = 2%nat ->
  forallb (char_in DEFAULT_WHITE_CHARS) white = true ->
  forallb is_digit hour = true -> length hour = 2%nat ->
  forallb is_digit minute = true -> length minute = 2%nat ->
  forallb is_digit second = true -> length second = 2%nat ->
  _parse n _PYPARSING_COMPONENTS.date true
    (year ++ "-"%char :: month ++ "-"%char :: day ++ white ++
     hour ++ ":"%char :: minute ++ ":"%char :: second ++ rest) =
    Some (date_results (int_of_digits year) (int_of_digits month)
            (int_of_digits day) (int_of_digits hour) (int_of_digits minute)
            (int_of_digits second), rest).
Proof.
  intros Hy Hly Hmo Hlmo Hd Hld Hw Hh Hlh Hmi Hlmi Hs Hls.
  rewrite date_from_day.
  etransitivity.
  { do 5 (try (eapply parse_And; [cbv beta iota|]));
      [ cbn [whiteChars]; apply parse_date_to_day; assumption
      | unfold _PYPARSING_COMPONENTS.hour, PyparsingConstants.TWO_DIGITS;
        rewrite (parse_field_after_white _ _ _ _ _ Hw);
        apply parse_field_text; [exact Hh|exact Hlh|lia]
      | apply (parse_separator n ":"); reflexivity
      | apply parse_field_text; [exact Hmi|exact Hlmi|lia]
      | apply (parse_separator n ":"); reflexivity
      | apply parse_field_text; [exact Hs|exact Hls|lia] ]. }
  reflexivity.
Qed.

(** With a character between the day and the hour that the grammar does
    not skip, the date and time do not match. *)
Lemma parse_date_stuck (n : nat) (year month day : str) (c : ascii) (rest : str) :
  forallb is_digit year = true -> length year = 4%nat ->
  forallb is_digit month = true -> length month = 2%nat ->
  forallb is_digit day = true -> length day = 2%nat ->
  char_in DEFAULT_WHITE_CHARS c = false -> is_digit c = false ->
  _parse n _PYPARSING_COMPONENTS.date true
    (year ++ "-"%char :: month ++ "-"%char :: day ++ c :: rest) = None.
Proof.
  intros Hy Hly Hmo Hlmo Hd Hld Hw Hc.
  destruct (_parse n _ true _) as [[rd after]|] eqn:H; [exfalso|reflexivity].
  rewrite date_from_day in H.
  do 4 (apply parse_And_inv in H; destruct H as (? & ? & ? & H & _ & _)).
  cbv beta iota in H. cbn [whiteChars] in H.
  apply parse_And_inv in H. destruct H as (r1 & rest1 & r2 & Hday & Hhour & _).
  cbv beta iota in Hday.
  rewrite (parse_date_to_day n year month day (c :: rest)) in Hday by assumption.
  injection Hday as _ <-.
  unfold _PYPARSING_COMPONENTS.hour, PyparsingConstants.TWO_DIGITS in Hhour.
  cbn [_parse whiteChars preParse] in Hhour. rewrite Hw in Hhour.
  cbn [take_chars] in Hhour. rewrite nums_is_digit, Hc in Hhour.
  discriminate Hhour.
Qed.

Lemma has_layout_cons_true (p : ascii -> bool) (classes : list (ascii -> bool))
    (line : str) :
  has_layout (p :: classes) line = true ->
  exists c rest, line = c :: rest /\ p c = true /\ has_layout classes rest = true.
Proof.
  destruct line as [|c rest]; [discriminate|]. cbn [has_layout]. intros H.
  apply andb_true_iff in H. destruct H as [Hc Hrest]. eauto.
Qed.

(** The text of a line that has the layout of the verifier. *)
Lemma probe_layout_text (line : str) :
  has_layout probe_layout line = true ->
  exists year month day sp hour minute second rest,
    line = (year ++ "-"%char :: month ++ "-"%char :: day) ++
           sp :: (hour ++ ":"%char :: minute ++ ":"%char :: second) ++ rest /\
    (forallb is_digit year = true /\ length year = 4%nat) /\
    (forallb is_digit month = true /\ length month = 2%nat) /\
    (forallb is_digit day = true /\ length day = 2%nat) /\
    (forallb is_digit hour = true /\ length hour = 2%nat) /\
    (forallb is_digit minute = true /\ length minute = 2%nat) /\
    (forallb is_digit second = true /\ length second = 2%nat) /\
    is_space sp = true /\ line !! 10%nat = Some sp /\
    take 4 line = year /\ take 2 (drop 5 line) = month /\
    take 2 (drop 8 line) = day /\ take 2 (drop 11 line) = hour /\
    take 2 (drop 14 line) = minute /\ take 2 (drop 17 line) = second.
Proof.
  unfold probe_layout. intros H.
  apply has_layout_cons_true in H. destruct H as (y1 & l1 & -> & Hy1 & H).
  apply has_layout_cons_true in H. destruct H as (y2 & l2 & -> & Hy2 & H).
  apply has_layout_cons_true in H. destruct H as (y3 & l3 & -> & Hy3 & H).
  apply has_layout_cons_true in H. destruct H as (y4 & l4 & -> & Hy4 & H).
  apply has_layout_cons_true in H. destruct H as (h1 & l5 & -> & Hh1 & H).
  apply has_layout_cons_true in H. destruct H as (m1 & l6 & -> & Hm1 & H).
  apply has_layout_cons_true in H. destruct H as (m2 & l7 & -> & Hm2 & H).
  apply has_layout_cons_true in H. destruct H as (h2 & l8 & -> & Hh2 & H).
  apply has_layout_cons_true in H. destruct H as (d1 & l9 & -> & Hd1 & H).
  apply has_layout_cons_true in H. destruct H as (d2 & l10 & -> & Hd2 & H).
  apply has_layout_cons_true in H. destruct H as (sp & l11 & -> & Hsp & H).
  apply has_layout_cons_true in H. destruct H as (H1 & l12 & -> & HH1 & H).
  apply has_layout_cons_true in H. destruct H as (H2 & l13 & -> & HH2 & H).
  apply has_layout_cons_true in H. destruct H as (c1 & l14 & -> & Hc1 & H).
  apply has_layout_cons_true in H. destruct H as (M1 & l15 & -> & HM1 & H).
  apply has_layout_cons_true in H. destruct H as (M2 & l16 & -> & HM2 & H).
  apply has_layout_cons_true in H. destruct H as (c2 & l17 & -> & Hc2 & H).
  apply has_layout_cons_true in H. destruct H as (S1 & l18 & -> & HS1 & H).
  apply has_layout_cons_true in H. destruct H as (S2 & l19 & -> & HS2 & H).
  apply Ascii.eqb_eq in Hh1, Hh2, Hc1, Hc2. subst h1 h2 c1 c2.
  exists [y1; y2; y3; y4], [m1; m2], [d1; d2], sp, [H1; H2], [M1; M2], [S1; S2], l19.
  cbn [forallb length]. rewrite Hy1, Hy2, Hy3, Hy4, Hm1, Hm2, Hd1, Hd2, HH1, HH2,
    HM1, HM2, HS1, HS2.
  repeat split; try reflexivity. exact Hsp.
Qed.

(** Among the lines that VerifyStructure accepts, the grammar matches
    exactly those whose character between the date and the time is white
    space of the grammar (a space, a tab, a line feed or a carriage
    return): on a form feed or a vertical tab there, which the regular
    expression takes as white space, the grammar fails.  When it matches,
    the six numbers are the digits at their places in the line. *)
Theorem VerifyStructure_then_grammar (unused_mediator : ParserMediator)
    (line : str) :
  VerifyStructure unused_mediator line = true ->
  (is_Some (parseString _EXIM4_LINE line) <->
   exists c, line !! 10%nat = Some c /\ char_in DEFAULT_WHITE_CHARS c = true) /\
  (forall structure,
     parseString _EXIM4_LINE line = Some structure ->
     getattr structure (u "year") = PyInt (int_of_digits (take 4 line)) /\
     getattr structure (u "month") = PyInt (int_of_digits (take 2 (drop 5 line))) /\
     getattr structure (u "day") = PyInt (int_of_digits (take 2 (drop 8 line))) /\
     getattr structure (u "hour") = PyInt (int_of_digits (take 2 (drop 11 line))) /\
     getattr structure (u "minute") =
       PyInt (int_of_digits (take 2 (drop 14 line))) /\
     getattr structure (u "second") =
       PyInt (int_of_digits (take 2 (drop 17 line)))).
Proof.
  rewrite VerifyStructure_has_layout. intros Hlayout.
  destruct (probe_layout_text line Hlayout)
    as (year & month & day & sp & hour & minute & second & rest & Hline &
        [Hy Hly] & [Hmo Hlmo] & [Hd Hld] & [Hh Hlh] & [Hmi Hlmi] & [Hs Hls] &
        Hsp & Hat & -> & -> & -> & -> & -> & ->).
  rewrite Hat. clear Hat Hlayout.
  assert (Hpre : forallb plain_char (year ++ "-"%char :: month ++ "-"%char :: day)
                 = true).
  { rewrite forallb_app. cbn [forallb]. rewrite forallb_app. cbn [forallb].
    rewrite !(forallb_weaken _ _ _ digit_plain) by assumption. reflexivity. }
  assert (Htime : forallb plain_char (hour ++ ":"%char :: minute ++ ":"%char :: second)
                  = true).
  { rewrite forallb_app. cbn [forallb]. rewrite forallb_app. cbn [forallb].
    rewrite !(forallb_weaken _ _ _ digit_plain) by assumption. reflexivity. }
  unfold parseString, expandtabs.
  assert (Hexp : exists white after,
             expandtabs_from 0 line =
               year ++ "-"%char :: month ++ "-"%char :: day ++ white ++
               hour ++ ":"%char :: minute ++ ":"%char :: second ++ after /\
             (char_in DEFAULT_WHITE_CHARS sp = true ->
              forallb (char_in DEFAULT_WHITE_CHARS) white = true) /\
             (char_in DEFAULT_WHITE_CHARS sp = false ->
              white = [sp] /\ is_digit sp = false)).
  { rewrite Hline, (expandtabs_plain _ _ _ Hpre).
    destruct (space_cases sp Hsp) as [[Hw Hcases]|(Hw & Hplain & Hdigit)].
    - destruct (expandtabs_white sp
                  ((hour ++ ":"%char :: minute ++ ":"%char :: second) ++ rest)
                  (0 + length (year ++ "-"%char :: month ++ "-"%char :: day))
                  Hcases) as (white & col' & -> & Hwhite).
      rewrite (expandtabs_plain _ _ _ Htime).
      eexists white, _. split; [|split; [auto|congruence]].
      repeat (rewrite <- ?app_assoc, <- ?app_comm_cons). reflexivity.
    - match goal with
      | |- context [expandtabs_from ?col (sp :: ?text)] =>
          change (expandtabs_from col (sp :: text))
            with (expandtabs_from col ([sp] ++ text))
      end.
      rewrite (expandtabs_plain [sp] _ _)
        by (cbn [forallb]; rewrite Hplain; reflexivity).
      rewrite (expandtabs_plain _ _ _ Htime).
      eexists [sp], _. split; [|split; [congruence|auto]].
      repeat (rewrite <- ?app_assoc, <- ?app_comm_cons). reflexivity. }
  destruct Hexp as (white & after & -> & Hwhite & Hstuck).
  set (n := length _).
  destruct (char_in DEFAULT_WHITE_CHARS sp) eqn:Hw.
  - specialize (Hwhite eq_refl). clear Hstuck.
    pose proof (parse_date_text n year month day white hour minute second after
                  Hy Hly Hmo Hlmo Hd Hld Hwhite Hh Hlh Hmi Hlmi Hs Hls) as Hdate.
    destruct (parse_line_after_date _ _ _ _ _ Hdate)
      as (ropt & rest2 & text & rest3 & rend & after' & Hopt & _ & _ & Hdict & Hparse).
    rewrite Hparse. split.
    + split; [eauto|]. intros _. eexists; reflexivity.
    + intros structure [= <-].
      apply parse_Optional_Suppress_inv in Hopt. subst ropt.
      unfold getattr, add_results. cbn [tokdict].
      rewrite Hdict, (left_id_L ∅ (∪)).
      repeat split; reflexivity.
  - destruct (Hstuck eq_refl) as [-> Hdigit]. clear Hwhite Hstuck.
    pose proof (parse_date_stuck n year month day sp
                  (hour ++ ":"%char :: minute ++ ":"%char :: second ++ after)
                  Hy Hly Hmo Hlmo Hd Hld Hw Hdigit) as Hdate.
    cbn [app].
    destruct (_parse n _EXIM4_LINE true _) as [[structure after']|] eqn:Hparse.
    + destruct (parse_line_date _ _ _ _ _ Hparse) as (rd & rest1 & Hsome).
      rewrite Hdate in Hsome. discriminate Hsome.
    + split.
      * split; [intros [? [=]]|intros (c & [= <-] & Hc); congruence].
      * intros structure [=].
Qed.

(** The line of the example matches and gives its numbers; the same line
    with a form feed between the date and the time passes VerifyStructure
    and does not match. *)
Lemma VerifyStructure_then_grammar_witness :
  VerifyStructure fresh_mediator example_line = true /\
  is_Some (parseString _EXIM4_LINE example_line) /\
  VerifyStructure fresh_mediator form_feed_line = true /\
  ~ is_Some (parseString _EXIM4_LINE form_feed_line).
Proof.
  split; [reflexivity|]. split.
  - apply (proj1 (VerifyStructure_then_grammar fresh_mediator example_line
                    eq_refl)).
    exists SPACE. split; reflexivity.
  - split; [reflexivity|]. intros Hsome.
    apply (proj1 (VerifyStructure_then_grammar fresh_mediator form_feed_line
                    eq_refl)) in Hsome.
    destruct Hsome as (c & [= <-] & [=]).
Defined.

(** ** The two date formats *)

Lemma probe_layout_not_dated (line : str) :
  has_layout probe_layout line = true -> dated line = false.
Proof.
  unfold probe_layout. intros H. rewrite dated_layout_correct.
  apply has_layout_cons_true in H. destruct H as (y1 & l1 & -> & _ & H).
  apply has_layout_cons_true in H. destruct H as (y2 & l2 & -> & _ & H).
  apply has_layout_cons_true in H. destruct H as (y3 & l3 & -> & _ & H).
  apply has_layout_cons_true in H. destruct H as (y4 & l4 & -> & Hy4 & _).
  cbn [dated_layout].
  assert (Hspace : is_space y4 = false).
  { destruct (is_space y4) eqn:Hs; [|reflexivity].
    rewrite (space_not_digit y4 Hs) in Hy4. discriminate Hy4. }
  rewrite Hspace, andb_false_r. reflexivity.
Qed.

(** The date that ends a body is not the date of the grammar: a line that
    VerifyStructure accepts does not begin with the date prefix the body
    looks for, so the body element never stops at the line feed in front
    of such a line. *)
Theorem verified_line_not_boundary (unused_mediator : ParserMediator)
    (next : str) :
  VerifyStructure unused_mediator next = true ->
  dated next = false /\
  forall n callPreParse input r,
    _parse n _PYPARSING_COMPONENTS.body callPreParse input <> Some (r, LF :: next).
Proof.
  rewrite VerifyStructure_has_layout. intros Hlayout.
  pose proof (probe_layout_not_dated next Hlayout) as Hdated.
  split; [exact Hdated|].
  intros n callPreParse input r Hparse.
  assert (Hbody : exists input',
            _parse n _PYPARSING_COMPONENTS.body false input' =
              Some (r, LF :: next)).
  { destruct callPreParse; [|eauto].
    exists (preParse DEFAULT_WHITE_CHARS input). exact Hparse. }
  destruct Hbody as (input' & Hbody).
  unfold _PYPARSING_COMPONENTS.body in Hbody. cbn [_parse] in Hbody.
  destruct (match_at n _PYPARSING_COMPONENTS.body_regex input')
    as [[text' rest']|] eqn:Hmatch; [|discriminate].
  cbn [on_results] in Hbody. injection Hbody as _ ->.
  destruct (body_regex_inv n _ _ _ Hmatch) as (_ & _ & [[Hnil _]|[Hend|Hnext]]).
  - discriminate Hnil.
  - injection Hend as ->. discriminate Hlayout.
  - destruct Hnext as (next' & [= <-] & Hnext). congruence.
Qed.

(** A second line in the format of the grammar is not a boundary: the
    body runs over it. *)
Lemma verified_line_not_boundary_witness :
  VerifyStructure fresh_mediator second_line = true /\
  dated second_line = false /\
  _parse 0 _PYPARSING_COMPONENTS.body true two_lines =
    Some (named_body two_lines, []).
Proof.
  split; [reflexivity|]. split; [|vm_compute; reflexivity].
  exact (proj1 (verified_line_not_boundary fresh_mediator second_line eq_refl)).
Defined.

(** ** Between the time and the body *)

Lemma date_text_app (year month day hour minute second : Z) (rest : str) :
  date_text year month day hour minute second ++ rest =
    zero_padded 4 year ++ "-"%char :: zero_padded 2 month ++ "-"%char ::
    zero_padded 2 day ++ SPACE :: zero_padded 2 hour ++ ":"%char ::
    zero_padded 2 minute ++ ":"%char :: zero_padded 2 second ++ rest.
Proof.
  unfold date_text. repeat (rewrite <- ?app_assoc, <- ?app_comm_cons).
  reflexivity.
Qed.

Lemma no_tab_date_text (year month day hour minute second : Z) :
  no_tab (date_text year month day hour minute second) = true.
Proof.
  pose proof (no_tab_format_line year month day hour minute second [] eq_refl) as H.
  unfold format_line in H. rewrite <- date_text_app in H.
  unfold no_tab in *. rewrite forallb_app in H.
  apply andb_true_iff in H. tauto.
Qed.

Lemma parse_separator_colon (n : nat) (before after body : str) (colon : bool) :
  forallb (char_in DEFAULT_WHITE_CHARS) before = true ->
  forallb (char_in DEFAULT_WHITE_CHARS) after = true ->
  starts_plain body = true ->
  exists white,
    _parse n (Optional (Suppress (Literal (u ":")))) true
      (separator before colon after ++ body) = Some (no_results, white ++ body) /\
    forallb (char_in DEFAULT_WHITE_CHARS) white = true.
Proof.
  intros Hbefore Hafter Hplain. unfold separator. cbn [_parse whiteChars].
  rewrite <- app_assoc, (preParse_white _ _ _ Hbefore).
  destruct colon.
  - exists after. split; [|exact Hafter]. reflexivity.
  - exists []. split; [|reflexivity]. cbn [app].
    rewrite (preParse_white _ _ _ Hafter), (starts_plain_preParse body Hplain).
    destruct body as [|c body]; [reflexivity|].
    cbn [starts_plain] in Hplain. apply andb_true_iff in Hplain.
    destruct Hplain as [_ Hcolon]. apply negb_true_iff in Hcolon.
    cbn [u list_ascii_of_string strip_prefix]. rewrite Ascii.eqb_sym, Hcolon.
    reflexivity.
Qed.

Lemma parse_body_after_white (n : nat) (white body : str) :
  forallb (char_in DEFAULT_WHITE_CHARS) white = true ->
  starts_plain body = true ->
  dated_line_inside body [] = false ->
  last body <> Some LF ->
  _parse n _PYPARSING_COMPONENTS.body true (white ++ body) =
    Some (named_body body, []).
Proof.
  intros Hwhite Hplain Hinside Hlast.
  assert (Hfollows : follows_body body []) by (left; split; [reflexivity|exact Hlast]).
  pose proof (parse_body_regex n _ _ _ (body_regex_stops n body [] Hinside Hfollows))
    as Hbody.
  rewrite app_nil_r in Hbody. etransitivity; [|exact Hbody].
  unfold _PYPARSING_COMPONENTS.body. cbn [_parse whiteChars].
  rewrite (preParse_white _ _ _ Hwhite), (starts_plain_preParse body Hplain).
  reflexivity.
Qed.

(** The round trip with any separator.  Between the seconds and the body
    the grammar skips white space, one colon if there is one, and white
    space again: for fields that fit their widths and a body as in the
    round trip of the format, the line with any such separator, the empty
    one included, matches and gives back the fields and the body. *)
Theorem separator_round_trip (year month day hour minute second : Z)
    (before after body : str) (colon : bool) :
  date_fields_fit year month day hour minute second ->
  forallb (char_in DEFAULT_WHITE_CHARS) before = true ->
  forallb (char_in DEFAULT_WHITE_CHARS) after = true ->
  no_tab (separator before colon after ++ body) = true ->
  starts_plain body = true ->
  dated_line_inside body [] = false ->
  last body <> Some LF ->
  exists structure,
    parseString _EXIM4_LINE
      (date_text year month day hour minute second ++
       separator before colon after ++ body) = Some structure /\
    has_fields structure year month day hour minute second body.
Proof.
  intros Hfit Hbefore Hafter Htab Hplain Hinside Hlast.
  unfold parseString, expandtabs.
  rewrite expandtabs_no_tab
    by (unfold no_tab in *; rewrite forallb_app;
        fold (no_tab (date_text year month day hour minute second));
        rewrite no_tab_date_text; exact Htab).
  set (n := length _).
  destruct (parse_separator_colon n before after body colon Hbefore Hafter Hplain)
    as (white & Hopt & Hwhite).
  assert (Hparse :
    _parse n _EXIM4_LINE true
      (date_text year month day hour minute second ++
       separator before colon after ++ body) =
    Some (add_results
            (add_results
               (add_results (date_results year month day hour minute second)
                  no_results) (named_body body)) no_results, [])).
  { assert (Hend : _parse n LineEnd true [] = Some (no_results, []))
      by reflexivity.
    unfold _EXIM4_LINE. rewrite date_text_app.
    eapply parse_And; [cbv beta iota|exact Hend].
    eapply parse_And;
      [cbv beta iota
      |exact (parse_body_after_white n white body Hwhite Hplain Hinside Hlast)].
    eapply parse_And; [cbv beta iota|exact Hopt].
    exact (parse_date n year month day hour minute second _ Hfit). }
  rewrite Hparse. eexists. split; [reflexivity|].
  unfold has_fields, getattr. repeat split; reflexivity.
Qed.

(** The example line with a colon right after the seconds. *)
Lemma separator_round_trip_witness :
  exists structure,
    parseString _EXIM4_LINE colon_line = Some structure /\
    has_fields structure 2016 5 12 10 15 30 (u "connection refused").
Proof.
  apply (separator_round_trip 2016 5 12 10 15 30 [] [SPACE]
           (u "connection refused") true).
  - unfold date_fields_fit. lia.
  - reflexivity.
  - reflexivity.
  - reflexivity.
  - reflexivity.
  - vm_compute. reflexivity.
  - vm_compute. discriminate.
Defined.
